(** * InSAR deformation raster to point cloud conversion

    A shallow embedding of [scripts/data_conversion/insar_to_point_cloud.py]:
    the geocoding arithmetic, the decimation mask, the validity filter, the
    two writers and the driver loop, followed by the properties of the
    conversion engine.

    Raster cells and transform coefficients are IEEE 754 binary64 values
    (numpy's default [float64], which the sample generator writes); they are
    modelled with the kernel's primitive floats, so NaN, the infinities
    and rounding behave as they do in the program. *)

From Stdlib Require Import String Ascii.
From Stdlib Require Import List ZArith Lia Bool Sorting.Sorted.
From Stdlib Require Import Floats.
Import ListNotations.

Set Warnings "-inexact-float".

Local Open Scope Z_scope.

(** ** Exceptions and results *)

(** The exceptions the modelled code can raise: numpy's [IndexError] of a
    boolean index whose shape does not match, pandas' [ValueError] of a column
    of the wrong length, and the [OSError] family of the file system. *)
Inductive exn : Type :=
| IndexError
| ValueError
| FileNotFoundError
| OSError.

Inductive result (A : Type) : Type :=
| Ok (a : A)
| Raise (e : exn).
Arguments Ok {A} a.
Arguments Raise {A} e.

Definition bind {A B : Type} (m : result A) (k : A -> result B) : result B :=
  match m with
  | Ok a => k a
  | Raise e => Raise e
  end.

Notation "x <- m ;; k" := (bind m (fun x => k))
  (at level 61, m at next level, right associativity).
Notation "' pat <- m ;; k" := (bind m (fun x => match x with pat => k end))
  (at level 61, pat pattern, m at next level, right associativity).

(** ** numpy arrays *)

(** A two-dimensional array: its shape and its buffer in C (row-major)
    order. One-dimensional arrays are plain lists. *)
Record ndarray (A : Type) : Type := mk_ndarray {
  nrows : nat;
  ncols : nat;
  buf : list A
}.
Arguments mk_ndarray {A} nrows ncols buf.
Arguments nrows {A} n.
Arguments ncols {A} n.
Arguments buf {A} n.

Definition shape {A : Type} (a : ndarray A) : nat * nat := (nrows a, ncols a).

(** The buffer of an array holds one value per cell. *)
Definition wf_ndarray {A : Type} (a : ndarray A) : Prop :=
  length (buf a) = (nrows a * ncols a)%nat.

Definition same_shape {A B : Type} (a : ndarray A) (b : ndarray B) : bool :=
  (nrows a =? nrows b)%nat && (ncols a =? ncols b)%nat.

(** Element [a[r, c]]. *)
Definition cell {A : Type} (dflt : A) (a : ndarray A) (rc : nat * nat) : A :=
  nth (fst rc * ncols a + snd rc)%nat (buf a) dflt.

(** The cells of a [h] x [w] grid in row-major order. *)
Definition all_cells (h w : nat) : list (nat * nat) :=
  flat_map (fun r => map (pair r) (seq 0 w)) (seq 0 h).

(** [np.indices((h, w))]: [rows[i, j] = i] and [cols[i, j] = j]. *)
Definition indices (h w : nat) : ndarray Z * ndarray Z :=
  (mk_ndarray h w (map (fun rc => Z.of_nat (fst rc)) (all_cells h w)),
   mk_ndarray h w (map (fun rc => Z.of_nat (snd rc)) (all_cells h w))).

(** An elementwise operation on two arrays of one shape. *)
Definition amap2 {A B C : Type} (f : A -> B -> C)
    (a : ndarray A) (b : ndarray B) : ndarray C :=
  mk_ndarray (nrows a) (ncols a)
    (map (fun p => f (fst p) (snd p)) (combine (buf a) (buf b))).

(** The values of [l] at the positions where [m] is true. *)
Fixpoint select {A : Type} (m : list bool) (l : list A) : list A :=
  match m, l with
  | b :: m', x :: l' => if b then x :: select m' l' else select m' l'
  | _, _ => []
  end.

(** [a[mask]] for a two-dimensional boolean [mask]: the selected values in
    row-major order; numpy raises [IndexError] when the shapes differ. *)
Definition bool_index {A : Type} (a : ndarray A) (mask : ndarray bool)
  : result (list A) :=
  if same_shape a mask then Ok (select (buf mask) (buf a)) else Raise IndexError.

(** [v[mask]] for one-dimensional [v] and [mask]. *)
Definition bool_index1 {A : Type} (v : list A) (mask : list bool)
  : result (list A) :=
  if (length v =? length mask)%nat then Ok (select mask v) else Raise IndexError.

(** numpy's integer remainder: the sign follows the divisor, and a zero
    divisor gives zero (with a warning). *)
Definition np_mod (a b : Z) : Z := if b =? 0 then 0 else a mod b.

(** Conversion of an [int64] to [float64]. *)
Definition float_of_int (z : Z) : float :=
  if z <? 0 then PrimFloat.opp (PrimFloat.of_uint63 (Uint63.of_Z (- z)))
  else PrimFloat.of_uint63 (Uint63.of_Z z).

(** ** The geocoding transform *)

(** Modelled from the spec: the transform is an object of the raster library,
    whose type is not part of the sources. The program reads six coefficients
    from it by position, [transform[0]] to [transform[5]]; the fields below are
    those six positions in order, under the names section 4.2 of the
    specification gives to the terms of its two equations. *)
Record transform : Type := mk_transform {
  originX : float;
  pixelWidth : float;
  rotX : float;
  originY : float;
  rotY : float;
  pixelHeight : float
}.

(** The configuration values the conversion reads:
    [config['point_cloud']['conversion']['resolution']] and
    [config['paths']['results']]. *)
Record config : Type := mk_config {
  resolution : Z;
  results : string
}.

(** ** create_point_cloud *)

Definition points : Type := list (float * float * float).
Definition attributes : Type := list (string * list float).

Local Open Scope float_scope.

(** [transform[0] + cols * transform[1] + rows * transform[2]] *)
Definition x_coords_of (t : transform) (rows cols : ndarray Z) : ndarray float :=
  amap2 (fun c r => originX t + float_of_int c * pixelWidth t
                      + float_of_int r * rotX t) cols rows.

(** [transform[3] + cols * transform[4] + rows * transform[5]] *)
Definition y_coords_of (t : transform) (rows cols : ndarray Z) : ndarray float :=
  amap2 (fun c r => originY t + float_of_int c * rotY t
                      + float_of_int r * pixelHeight t) cols rows.

(** [(cols % resolution == 0) & (rows % resolution == 0)] *)
Definition decimation_mask (res : Z) (rows cols : ndarray Z) : ndarray bool :=
  amap2 (fun c r => (np_mod c res =? 0)%Z && (np_mod r res =? 0)%Z) cols rows.

(** [~np.isnan(z_values) & (coherence_values > 0.3)] *)
Definition valid_mask_of (z_values coherence_values : list float) : list bool :=
  map (fun p => negb (PrimFloat.is_nan (fst p)) && (0.3 <? snd p))
      (combine z_values coherence_values).

(** [np.ones_like(z_values)] *)
Definition ones_like (v : list float) : list float := map (fun _ => 1) v.

(** [np.vstack((x, y, z)).T]: one row [(x, y, z)] per point. *)
Definition vstack3_T (xs ys zs : list float) : points :=
  combine (combine xs ys) zs.

Definition create_point_cloud (deformation : ndarray float)
    (coherence : option (ndarray float)) (t : transform) (cfg : config)
  : result (points * attributes) :=
  let res := resolution cfg in
  let '(height, width) := shape deformation in
  let '(rows, cols) := indices height width in
  let x_coords := x_coords_of t rows cols in
  let y_coords := y_coords_of t rows cols in
  let mask := decimation_mask res rows cols in
  x_coords <- bool_index x_coords mask ;;
  y_coords <- bool_index y_coords mask ;;
  z_values <- bool_index deformation mask ;;
  coherence_values <-
    match coherence with
    | Some coh => bool_index coh mask
    | None => Ok (ones_like z_values)
    end ;;
  let valid_mask := valid_mask_of z_values coherence_values in
  x_coords <- bool_index1 x_coords valid_mask ;;
  y_coords <- bool_index1 y_coords valid_mask ;;
  z_values <- bool_index1 z_values valid_mask ;;
  coherence_values <- bool_index1 coherence_values valid_mask ;;
  Ok (vstack3_T x_coords y_coords z_values,
      [("deformation"%string, z_values); ("coherence"%string, coherence_values)]).

Local Close Scope float_scope.

(** ** The cells behind the masks *)

(** The cells at which the decimation mask of [create_point_cloud] is true,
    in the order boolean indexing keeps them. *)
Definition selected_cells (height width : nat) (res : Z) : list (nat * nat) :=
  let '(rows, cols) := indices height width in
  select (buf (decimation_mask res rows cols)) (all_cells height width).

(** The cells that remain after the validity mask as well: the two masks of
    [create_point_cloud] applied to the cell indices themselves. *)
Definition surviving_cells (deformation : ndarray float)
    (coherence : option (ndarray float)) (res : Z) : result (list (nat * nat)) :=
  let '(height, width) := shape deformation in
  let '(rows, cols) := indices height width in
  let mask := decimation_mask res rows cols in
  z_values <- bool_index deformation mask ;;
  coherence_values <-
    match coherence with
    | Some coh => bool_index coh mask
    | None => Ok (ones_like z_values)
    end ;;
  bool_index1 (selected_cells height width res)
              (valid_mask_of z_values coherence_values).

(** Value of a float raster at a cell. *)
Definition value_at (a : ndarray float) (rc : nat * nat) : float :=
  cell PrimFloat.zero a rc.

(** The coherence the builder uses at a cell: the raster's value, or 1.0
    when there is no coherence raster. *)
Definition coherence_at (coherence : option (ndarray float)) (rc : nat * nat)
  : float :=
  match coherence with
  | Some coh => value_at coh rc
  | None => 1%float
  end.

(** The affine equations of section 4.2 of the specification, for the cell
    [(row, col)], in binary64 arithmetic. *)
Definition cellToGround (row col : nat) (t : transform) : float * float :=
  ((originX t + float_of_int (Z.of_nat col) * pixelWidth t
      + float_of_int (Z.of_nat row) * rotX t)%float,
   (originY t + float_of_int (Z.of_nat col) * rotY t
      + float_of_int (Z.of_nat row) * pixelHeight t)%float).

(** The point of a cell: its ground coordinates and its deformation. *)
Definition point_at (deformation : ndarray float) (t : transform)
    (rc : nat * nat) : float * float * float :=
  (cellToGround (fst rc) (snd rc) t, value_at deformation rc).

(** The two per-cell tests behind the masks. *)
Definition on_stride (res : Z) (rc : nat * nat) : bool :=
  (np_mod (Z.of_nat (snd rc)) res =? 0) && (np_mod (Z.of_nat (fst rc)) res =? 0).

Definition passes (deformation : ndarray float)
    (coherence : option (ndarray float)) (rc : nat * nat) : bool :=
  negb (PrimFloat.is_nan (value_at deformation rc))
  && (0.3 <? coherence_at coherence rc)%float.

(** A coherence raster, when there is one, has the dimensions of the
    deformation raster (section 6 of the specification). *)
Definition coherence_fits (deformation : ndarray float)
    (coherence : option (ndarray float)) : Prop :=
  match coherence with
  | Some coh =>
      wf_ndarray coh /\ nrows coh = nrows deformation
      /\ ncols coh = ncols deformation
  | None => True
  end.

(** The cells the builder keeps, read off the two tests. *)
Definition kept_cells (deformation : ndarray float)
    (coherence : option (ndarray float)) (res : Z) : list (nat * nat) :=
  filter (passes deformation coherence)
         (selected_cells (nrows deformation) (ncols deformation) res).

(** Row-major order on cells. *)
Definition cell_lt (a b : nat * nat) : Prop :=
  (fst a < fst b)%nat \/ (fst a = fst b /\ (snd a < snd b)%nat).

(** [ceil(a / b)] for a positive [b]. *)
Definition ceil_div (a b : Z) : Z := (a + b - 1) / b.

(** ** Paths and file names *)

Local Open Scope string_scope.

(** [s.endswith(suffix)] *)
Definition endswith (s suffix : string) : bool :=
  let n := String.length s in
  let m := String.length suffix in
  (m <=? n)%nat && String.eqb (substring (n - m) m s) suffix.

(** [s.replace(old, new)] for a non-empty [old]: the occurrences are replaced
    from left to right; [skip] counts the characters of an occurrence that are
    still to be passed over. *)
Fixpoint replace_from (old new : string) (skip : nat) (s : string) : string :=
  match s with
  | EmptyString => EmptyString
  | String ch s' =>
      match skip with
      | S k => replace_from old new k s'
      | O =>
          if String.prefix old s
          then new ++ replace_from old new (String.length old - 1) s'
          else String ch (replace_from old new 0 s')
      end
  end.

Definition replace (s old new : string) : string := replace_from old new 0 s.

(** The text before and after the last occurrence of [sep] in [s]. *)
Fixpoint rsplit_at (sep : ascii) (s : string) : option (string * string) :=
  match s with
  | EmptyString => None
  | String ch s' =>
      match rsplit_at sep s' with
      | Some (a, b) => Some (String ch a, b)
      | None => if Ascii.eqb ch sep then Some (EmptyString, s') else None
      end
  end.

(** [os.path.basename(p)] *)
Definition basename (p : string) : string :=
  match rsplit_at "/" p with
  | Some (_, b) => b
  | None => p
  end.

Fixpoint all_dots (s : string) : bool :=
  match s with
  | EmptyString => true
  | String ch s' => Ascii.eqb ch "." && all_dots s'
  end.

(** [os.path.splitext(p)]: the extension starts at the last dot of the last
    path component, unless only dots precede it there. *)
Definition splitext (p : string) : string * string :=
  let '(dir, name) :=
    match rsplit_at "/" p with
    | Some (a, b) => (a ++ "/", b)
    | None => (EmptyString, p)
    end in
  match rsplit_at "." name with
  | Some (stem, ext) =>
      if all_dots stem then (p, EmptyString)
      else (dir ++ stem, String "." ext)
  | None => (p, EmptyString)
  end.

(** [os.path.join(a, b)] *)
Definition path_join (a b : string) : string :=
  if String.prefix "/" b then b
  else if String.eqb a "" || endswith a "/" then a ++ b
  else a ++ "/" ++ b.

Local Close Scope string_scope.

(** ** Files and the world *)

(** A declared extra dimension of a LAS file: its name, its type (always
    [np.float32] here) and its description. *)
Record extra_dim : Type := mk_extra_dim {
  dim_name : string;
  dim_description : string
}.

(** The object [laspy.create] returns, as far as the program uses it:
    version, point format, the three coordinate columns and the extra
    dimensions with their columns. *)
Record LasData : Type := mk_LasData {
  file_version : string;
  point_format : nat;
  las_x : list float;
  las_y : list float;
  las_z : list float;
  las_extra : list (extra_dim * list float)
}.

(** A written LAS file, at the level of what the program hands to the
    library: the header with its point count and declared extra dimensions,
    and the point records, each with its coordinates and its extra values. *)
Record las_header : Type := mk_las_header {
  hdr_version : string;
  hdr_point_format : nat;
  hdr_point_count : nat;
  hdr_extra_dims : list extra_dim
}.

Definition las_record : Type := (float * float * float) * list float.

(** What a path can hold. A text point cloud is kept as its header row and
    its data rows; how pandas prints a number is not modelled. *)
Inductive file : Type :=
| RasterFile (data : ndarray float) (t : transform) (crs : string)
| ConfigFile (cfg : config)
| LasFile (hdr : las_header) (body : list las_record)
| XyzFile (sep : string) (header : list string) (rows : list (list float))
| OtherFile.

Record world : Type := mk_world {
  contents : string -> option file;
  listing : string -> option (list string);
  writable : string -> bool
}.

(** Stateful computations that may raise: the world is threaded through and
    survives an exception. *)
Definition io (A : Type) : Type := world -> result A * world.

Definition io_ret {A : Type} (a : A) : io A := fun w => (Ok a, w).

Definition io_bind {A B : Type} (m : io A) (k : A -> io B) : io B :=
  fun w =>
    match m w with
    | (Ok a, w') => k a w'
    | (Raise e, w') => (Raise e, w')
    end.

Definition lift {A : Type} (r : result A) : io A := fun w => (r, w).

Notation "x <~ m ;; k" := (io_bind m (fun x => k))
  (at level 61, m at next level, right associativity).
Notation "' pat <~ m ;; k" := (io_bind m (fun x => match x with pat => k end))
  (at level 61, pat pattern, m at next level, right associativity).

(** Writing a file: an [OSError] when the path cannot be written. *)
Definition write_file (path : string) (f : file) : io unit :=
  fun w =>
    if writable w path
    then (Ok tt, mk_world (fun p => if String.eqb p path then Some f else contents w p)
                          (listing w) (writable w))
    else (Raise OSError, w).

(** ** Readers *)

(** [read_deformation_data]: the band, the transform and the reference
    system of a raster; every exception of the raster library is caught and
    turned into [None]. *)
Definition read_deformation_data (w : world) (file_path : string)
  : option (ndarray float * transform * string) :=
  match contents w file_path with
  | Some (RasterFile data t crs) => Some (data, t, crs)
  | _ => None
  end.

(** [read_coherence_data]: the band of a raster, or [None] on any exception. *)
Definition read_coherence_data (w : world) (file_path : string)
  : option (ndarray float) :=
  match contents w file_path with
  | Some (RasterFile data _ _) => Some data
  | _ => None
  end.

(** [os.path.exists] *)
Definition path_exists (w : world) (path : string) : bool :=
  match contents w path with
  | Some _ => true
  | None => false
  end.

(** ** save_to_las *)

(** [laspy.create(point_format=fmt, file_version=ver)]: no points yet. *)
Definition laspy_create (fmt : nat) (ver : string) : LasData :=
  mk_LasData ver fmt [] [] [] [].

Definition set_xyz (l : LasData) (xs ys zs : list float) : LasData :=
  mk_LasData (file_version l) (point_format l) xs ys zs (las_extra l).

(** [outfile.add_extra_dim(...)]: a new dimension, zero for every point. *)
Definition add_extra_dim (l : LasData) (d : extra_dim) : LasData :=
  mk_LasData (file_version l) (point_format l) (las_x l) (las_y l) (las_z l)
    (las_extra l ++ [(d, map (fun _ => PrimFloat.zero) (las_x l))]).

(** [outfile[name] = values]: the column of the dimension [name]; the
    values must be as many as the points. *)
Definition set_extra (l : LasData) (name : string) (values : list float)
  : result LasData :=
  if (length values =? length (las_x l))%nat
  then Ok (mk_LasData (file_version l) (point_format l)
             (las_x l) (las_y l) (las_z l)
             (map (fun e => if String.eqb (dim_name (fst e)) name
                            then (fst e, values) else e) (las_extra l)))
  else Raise ValueError.

(** The point records of an object: row [i] of every column. *)
Definition las_records (l : LasData) : list las_record :=
  map (fun i =>
         ((nth i (las_x l) PrimFloat.zero, nth i (las_y l) PrimFloat.zero,
           nth i (las_z l) PrimFloat.zero),
          map (fun e => nth i (snd e) PrimFloat.zero) (las_extra l)))
      (seq 0 (length (las_x l))).

(** [outfile.write(path)]: the header counts the records it is written with. *)
Definition las_write (l : LasData) (path : string) : io unit :=
  write_file path
    (LasFile (mk_las_header (file_version l) (point_format l)
                (length (las_x l)) (map fst (las_extra l)))
             (las_records l)).

(** The loop over [attributes.items()] of [save_to_las]. *)
Fixpoint add_attributes (l : LasData) (attrs : attributes) : result LasData :=
  match attrs with
  | [] => Ok l
  | (attr_name, attr_values) :: rest =>
      l' <- set_extra
              (add_extra_dim l (mk_extra_dim attr_name (attr_name ++ " values")))
              attr_name attr_values ;;
      add_attributes l' rest
  end.

Definition save_to_las (pts : points) (attrs : attributes) (output_file : string)
  : io unit :=
  let outfile := laspy_create 7 "1.4" in
  let outfile := set_xyz outfile (map (fun p => fst (fst p)) pts)
                         (map (fun p => snd (fst p)) pts) (map snd pts) in
  outfile <~ lift (add_attributes outfile attrs) ;;
  las_write outfile output_file.

(** ** save_to_xyz *)

(** A pandas data frame: the length of its index and its columns in order. *)
Record DataFrame : Type := mk_DataFrame {
  df_len : nat;
  df_columns : list (string * list float)
}.

(** [pd.DataFrame(points, columns=['X', 'Y', 'Z'])] *)
Definition DataFrame_of_points (pts : points) : DataFrame :=
  mk_DataFrame (length pts)
    [("X"%string, map (fun p => fst (fst p)) pts);
     ("Y"%string, map (fun p => snd (fst p)) pts);
     ("Z"%string, map snd pts)].

Fixpoint set_column (name : string) (values : list float)
    (cols : list (string * list float)) : list (string * list float) :=
  match cols with
  | [] => [(name, values)]
  | (n, v) :: rest =>
      if String.eqb n name then (n, values) :: rest
      else (n, v) :: set_column name values rest
  end.

(** [df[name] = values]: pandas raises [ValueError] when the length of the
    values is not the length of the index. *)
Definition df_set (df : DataFrame) (name : string) (values : list float)
  : result DataFrame :=
  if (length values =? df_len df)%nat
  then Ok (mk_DataFrame (df_len df) (set_column name values (df_columns df)))
  else Raise ValueError.

Fixpoint df_add_attributes (df : DataFrame) (attrs : attributes)
  : result DataFrame :=
  match attrs with
  | [] => Ok df
  | (attr_name, attr_values) :: rest =>
      df' <- df_set df attr_name attr_values ;;
      df_add_attributes df' rest
  end.

(** [df.to_csv(path, index=False, sep=sep)]: the header row of column names,
    then one row per index entry. *)
Definition to_csv (df : DataFrame) (path : string) (sep : string) : io unit :=
  write_file path
    (XyzFile sep (map fst (df_columns df))
       (map (fun i => map (fun c => nth i (snd c) PrimFloat.zero) (df_columns df))
            (seq 0 (df_len df)))).

Definition save_to_xyz (pts : points) (attrs : attributes) (output_file : string)
  : io unit :=
  let df := DataFrame_of_points pts in
  df <~ lift (df_add_attributes df attrs) ;;
  to_csv df output_file " ".

(** ** process_deformation_file and main *)

Definition process_deformation_file
    (deformation_file coherence_file output_dir : string) (cfg : config)
  : io bool :=
  fun w =>
    match read_deformation_data w deformation_file with
    | None => (Ok false, w)
    | Some (deformation, t, crs) =>
        let coherence :=
          if negb (String.eqb coherence_file "") && path_exists w coherence_file
          then read_coherence_data w coherence_file
          else None in
        ('(pts, attrs) <~ lift (create_point_cloud deformation coherence t cfg) ;;
         let base_name := fst (splitext (basename deformation_file)) in
         let las_output := path_join output_dir (base_name ++ ".las") in
         let xyz_output := path_join output_dir (base_name ++ ".xyz") in
         _ <~ save_to_las pts attrs las_output ;;
         _ <~ save_to_xyz pts attrs xyz_output ;;
         io_ret true) w
    end.

(** The command line: [--config], [--input-dir] and [--output-dir]. *)
Record args : Type := mk_args {
  arg_config : string;
  arg_input_dir : option string;
  arg_output_dir : option string
}.

Definition load_config (config_file : string) : io config :=
  fun w =>
    match contents w config_file with
    | Some (ConfigFile cfg) => (Ok cfg, w)
    | Some _ => (Raise ValueError, w)
    | None => (Raise FileNotFoundError, w)
    end.

(** [os.listdir] *)
Definition listdir (dir : string) : io (list string) :=
  fun w =>
    match listing w dir with
    | Some names => (Ok names, w)
    | None => (Raise FileNotFoundError, w)
    end.

(** The loop of [main] over the directory listing, from a given
    [processed_count]. *)
Fixpoint process_all (input_dir output_dir : string) (cfg : config)
    (names : list string) (processed_count : nat) : io nat :=
  match names with
  | [] => io_ret processed_count
  | name :: rest =>
      if endswith name "_unwrap.geo" then
        let deformation_file := path_join input_dir name in
        let coherence_file :=
          path_join input_dir (replace name "_unwrap.geo" "_corr.geo") in
        ok <~ process_deformation_file deformation_file coherence_file
                output_dir cfg ;;
        process_all input_dir output_dir cfg rest
          (if ok then S processed_count else processed_count)
      else process_all input_dir output_dir cfg rest processed_count
  end.

(** A command-line value counts when it is given and not empty. *)
Definition arg_or (a : option string) (dflt : string) : string :=
  match a with
  | Some s => if String.eqb s "" then dflt else s
  | None => dflt
  end.

(** [main]: its value is the [processed_count] of the closing report, which
    is printed only when the loop ends without an exception.
    [os.makedirs(output_dir, exist_ok=True)] is taken to succeed. *)
Definition main (a : args) : io nat :=
  cfg <~ load_config (arg_config a) ;;
  let input_dir :=
    arg_or (arg_input_dir a) (path_join (results cfg) "deformation") in
  let output_dir :=
    arg_or (arg_output_dir a) (path_join (results cfg) "point_cloud") in
  names <~ listdir input_dir ;;
  process_all input_dir output_dir cfg names 0.

(** ** Sample inputs *)

Module Sample.

Local Open Scope string_scope.

(** The 4 x 4 grid with the values 0..15 in row-major order. *)
Definition grid4 : ndarray float :=
  mk_ndarray 4 4 (map (fun n => float_of_int (Z.of_nat n)) (seq 0 16)).

Definition uniform (h w : nat) (v : float) : ndarray float :=
  mk_ndarray h w (repeat v (h * w)).

(** A north-up transform: origin (500000, 3000000), 30 m cells. *)
Definition north_up : transform :=
  mk_transform 500000 30 0 3000000 0 (-30).

(** A transform with rotation terms. *)
Definition rotated : transform :=
  mk_transform 100.5 0.1 0.3 (-7.25) 0.7 (-0.1).

Definition cfg2 : config := mk_config 2 "results".
Definition cfg1 : config := mk_config 1 "results".

(** A grid with a NaN and the two infinities among its values. *)
Definition special : ndarray float :=
  mk_ndarray 2 3 [PrimFloat.nan; PrimFloat.infinity; 1.5%float;
                  PrimFloat.neg_infinity; 2.5%float; (-3)%float].

(** A coherence grid with a value on the threshold, a NaN, values below it
    and values above it. *)
Definition mixed_coherence : ndarray float :=
  mk_ndarray 2 3 [0.9%float; 0.8%float; 0.3%float;
                  0.31%float; PrimFloat.nan; 0.1%float].

(** A directory with two pairs; the coherence raster of the first pair is
    3 x 4 against a 4 x 4 deformation raster. *)
Definition mismatch_world : world :=
  mk_world
    (fun p =>
       if String.eqb p "in/20210101_unwrap.geo" then Some (RasterFile grid4 north_up "utm50")
       else if String.eqb p "in/20210101_corr.geo" then Some (RasterFile (uniform 3 4 0.9) north_up "utm50")
       else if String.eqb p "in/20210113_unwrap.geo" then Some (RasterFile grid4 north_up "utm50")
       else if String.eqb p "in/20210113_corr.geo" then Some (RasterFile (uniform 4 4 0.9) north_up "utm50")
       else if String.eqb p "cfg.yml" then Some (ConfigFile cfg2)
       else None)
    (fun d =>
       if String.eqb d "in"
       then Some ["20210101_unwrap.geo"; "20210101_corr.geo";
                  "20210113_unwrap.geo"; "20210113_corr.geo"]
       else None)
    (fun _ => true).

(** A directory with two good pairs, an unreadable deformation file first,
    and an output directory in which point clouds of the first good pair
    cannot be written. *)
Definition readonly_world : world :=
  mk_world
    (fun p =>
       if String.eqb p "in/20210101_unwrap.geo" then Some (RasterFile grid4 north_up "utm50")
       else if String.eqb p "in/20210113_unwrap.geo" then Some (RasterFile grid4 north_up "utm50")
       else if String.eqb p "in/broken_unwrap.geo" then Some OtherFile
       else if String.eqb p "cfg.yml" then Some (ConfigFile cfg2)
       else None)
    (fun d =>
       if String.eqb d "in"
       then Some ["broken_unwrap.geo"; "20210101_unwrap.geo"; "20210113_unwrap.geo"]
       else None)
    (fun p => negb (String.prefix "out/20210101" p)).

(** The same directory with every output path writable. *)
Definition good_world : world :=
  mk_world (contents readonly_world) (listing readonly_world) (fun _ => true).

Definition run_args : args := mk_args "cfg.yml" (Some "in") (Some "out").

(** The directory of [good_world] with a coherence file beside the first
    deformation raster that is not a raster. *)
Definition corrupt_coherence_world : world :=
  mk_world
    (fun p =>
       if String.eqb p "in/20210101_corr.geo" then Some OtherFile
       else contents good_world p)
    (listing good_world) (fun _ => true).

End Sample.

(** * Properties *)

(** ** Lists, masks and cells *)

Section Masks.

Context {A B C : Type}.

Lemma select_map (f : A -> bool) (g : A -> B) (l : list A) :
  select (map f l) (map g l) = map g (filter f l).
Proof.
  induction l as [|a l IH]; simpl; [reflexivity|].
  destruct (f a); simpl; now rewrite IH.
Qed.

Lemma combine_map (f : A -> B) (g : A -> C) (l : list A) :
  combine (map f l) (map g l) = map (fun a => (f a, g a)) l.
Proof.
  induction l as [|a l IH]; simpl; [reflexivity|now rewrite IH].
Qed.

Lemma bool_index1_map (f : A -> bool) (g : A -> B) (l : list A) :
  bool_index1 (map g l) (map f l) = Ok (map g (filter f l)).
Proof.
  unfold bool_index1. rewrite !length_map, Nat.eqb_refl.
  now rewrite select_map.
Qed.

End Masks.

Lemma map_offset_seq (k w s : nat) :
  map (fun c => (k + c)%nat) (seq s w) = seq (k + s) w.
Proof.
  revert s. induction w as [|w IH]; intros s; simpl; [reflexivity|].
  f_equal. rewrite IH. now rewrite Nat.add_succ_r.
Qed.

Lemma map_nth_seq {A : Type} (d : A) (l : list A) :
  map (fun k => nth k l d) (seq 0 (length l)) = l.
Proof.
  induction l as [|a l IH]; simpl; [reflexivity|].
  f_equal. rewrite <- seq_shift, map_map. exact IH.
Qed.

Lemma all_cells_succ (h w : nat) :
  all_cells (S h) w = all_cells h w ++ map (pair h) (seq 0 w).
Proof.
  unfold all_cells. rewrite seq_S, flat_map_app. simpl.
  now rewrite app_nil_r.
Qed.

Lemma all_cells_offsets (h w : nat) :
  map (fun rc => (fst rc * w + snd rc)%nat) (all_cells h w) = seq 0 (h * w).
Proof.
  induction h as [|h IH]; [reflexivity|].
  rewrite all_cells_succ, map_app, IH, map_map. simpl fst; simpl snd.
  rewrite map_offset_seq, Nat.add_0_r.
  replace (S h * w)%nat with (h * w + w)%nat by lia.
  now rewrite seq_app.
Qed.

Lemma length_all_cells (h w : nat) : length (all_cells h w) = (h * w)%nat.
Proof.
  rewrite <- (length_map (fun rc => (fst rc * w + snd rc)%nat)).
  now rewrite all_cells_offsets, length_seq.
Qed.

Lemma in_all_cells (h w : nat) (rc : nat * nat) :
  In rc (all_cells h w) <-> (fst rc < h)%nat /\ (snd rc < w)%nat.
Proof.
  unfold all_cells. rewrite in_flat_map. destruct rc as [r c]. simpl. split.
  - intros [r' [Hr Hc]]. apply in_map_iff in Hc as [c' [E Hc]].
    inversion E; subst. apply in_seq in Hr, Hc. lia.
  - intros [Hr Hc]. exists r. split; [apply in_seq; lia|].
    apply in_map. apply in_seq. lia.
Qed.

(** The buffer of a well-formed array lists its cells in row-major order. *)
Lemma buf_cells {A : Type} (d : A) (a : ndarray A) :
  wf_ndarray a -> buf a = map (cell d a) (all_cells (nrows a) (ncols a)).
Proof.
  intros Hwf. unfold cell.
  rewrite <- (map_map (fun rc => (fst rc * ncols a + snd rc)%nat)
                      (fun k => nth k (buf a) d)).
  rewrite all_cells_offsets, <- Hwf. symmetry. apply map_nth_seq.
Qed.

Lemma amap2_indices {C : Type} (f : Z -> Z -> C) (h w : nat) :
  buf (amap2 f (snd (indices h w)) (fst (indices h w)))
  = map (fun rc => f (Z.of_nat (snd rc)) (Z.of_nat (fst rc))) (all_cells h w).
Proof.
  unfold amap2, indices. simpl. now rewrite combine_map, map_map.
Qed.

Lemma selected_cells_filter (h w : nat) (res : Z) :
  selected_cells h w res = filter (on_stride res) (all_cells h w).
Proof.
  unfold selected_cells, decimation_mask.
  change (indices h w) with (fst (indices h w), snd (indices h w)). cbv iota beta.
  rewrite amap2_indices.
  rewrite <- (map_id (all_cells h w)) at 2. rewrite select_map, map_id.
  reflexivity.
Qed.

(** Indexing with the decimation mask keeps the values of the selected
    cells, whatever array of the grid's shape is indexed. *)
Lemma bool_index_decimation {V : Type} (a : ndarray V) (g : nat * nat -> V)
    (h w : nat) (res : Z) :
  nrows a = h -> ncols a = w -> buf a = map g (all_cells h w) ->
  bool_index a (decimation_mask res (fst (indices h w)) (snd (indices h w)))
  = Ok (map g (selected_cells h w res)).
Proof.
  intros Hr Hc Hb. unfold bool_index, same_shape.
  unfold decimation_mask at 1 2. simpl nrows; simpl ncols.
  rewrite Hr, Hc, !Nat.eqb_refl. simpl andb. cbv iota.
  unfold decimation_mask. rewrite amap2_indices, Hb, select_map.
  now rewrite selected_cells_filter.
Qed.

(** ** The builder, cell by cell *)

Lemma valid_mask_cells (d : ndarray float) (coh : option (ndarray float))
    (l : list (nat * nat)) :
  valid_mask_of (map (value_at d) l) (map (coherence_at coh) l)
  = map (passes d coh) l.
Proof.
  unfold valid_mask_of. now rewrite combine_map, map_map.
Qed.

Lemma coherence_values_cells (d : ndarray float) (coh : option (ndarray float))
    (res : Z) :
  coherence_fits d coh ->
  match coh with
  | Some c =>
      bool_index c (decimation_mask res (fst (indices (nrows d) (ncols d)))
                                    (snd (indices (nrows d) (ncols d))))
  | None =>
      Ok (ones_like (map (value_at d) (selected_cells (nrows d) (ncols d) res)))
  end
  = Ok (map (coherence_at coh) (selected_cells (nrows d) (ncols d) res)).
Proof.
  destruct coh as [c|]; simpl.
  - intros (Hwf & Hr & Hc). apply bool_index_decimation; trivial.
    rewrite <- Hr, <- Hc. now apply buf_cells.
  - intros _. unfold ones_like. now rewrite map_map.
Qed.

(** The mask computations of [surviving_cells] and [create_point_cloud]
    amount to filtering the row-major scan of the grid. *)
Lemma surviving_cells_kept (d : ndarray float) (coh : option (ndarray float))
    (res : Z) :
  wf_ndarray d -> coherence_fits d coh ->
  surviving_cells d coh res = Ok (kept_cells d coh res).
Proof.
  intros Hwf Hfit. unfold surviving_cells, shape.
  change (indices (nrows d) (ncols d))
    with (fst (indices (nrows d) (ncols d)), snd (indices (nrows d) (ncols d))).
  cbv iota beta.
  rewrite (bool_index_decimation d (value_at d) (nrows d) (ncols d) res)
    by (trivial; now apply buf_cells).
  cbn [bind]. rewrite (coherence_values_cells d coh res Hfit). cbn [bind].
  rewrite valid_mask_cells.
  rewrite <- (map_id (selected_cells _ _ _)) at 1.
  rewrite bool_index1_map, map_id. reflexivity.
Qed.

Lemma create_point_cloud_kept (d : ndarray float) (coh : option (ndarray float))
    (t : transform) (cfg : config) :
  wf_ndarray d -> coherence_fits d coh ->
  create_point_cloud d coh t cfg
  = Ok (map (point_at d t) (kept_cells d coh (resolution cfg)),
        [("deformation"%string,
          map (value_at d) (kept_cells d coh (resolution cfg)));
         ("coherence"%string,
          map (coherence_at coh) (kept_cells d coh (resolution cfg)))]).
Proof.
  intros Hwf Hfit. unfold create_point_cloud, shape.
  change (indices (nrows d) (ncols d))
    with (fst (indices (nrows d) (ncols d)), snd (indices (nrows d) (ncols d))).
  cbv iota beta zeta.
  set (h := nrows d). set (w := ncols d). set (res := resolution cfg).
  rewrite (bool_index_decimation _
             (fun rc => fst (cellToGround (fst rc) (snd rc) t)) h w res);
    [| reflexivity | reflexivity
     | unfold x_coords_of; now rewrite amap2_indices ].
  cbn [bind].
  rewrite (bool_index_decimation _
             (fun rc => snd (cellToGround (fst rc) (snd rc) t)) h w res);
    [| reflexivity | reflexivity
     | unfold y_coords_of; now rewrite amap2_indices ].
  cbn [bind].
  rewrite (bool_index_decimation d (value_at d) h w res)
    by (trivial; now apply buf_cells).
  cbn [bind]. subst h w res.
  rewrite (coherence_values_cells d coh (resolution cfg) Hfit). cbn [bind].
  rewrite valid_mask_cells, !bool_index1_map. cbn [bind].
  fold (kept_cells d coh (resolution cfg)).
  unfold vstack3_T. rewrite !combine_map. reflexivity.
Qed.

(** ** Row-major order *)

Section Sorting.

Context {A : Type} (R : A -> A -> Prop).

Lemma StronglySorted_app_intro (l1 l2 : list A) :
  StronglySorted R l1 -> StronglySorted R l2 ->
  (forall x y, In x l1 -> In y l2 -> R x y) ->
  StronglySorted R (l1 ++ l2).
Proof.
  induction l1 as [|a l1 IH]; simpl; intros H1 H2 H12; [exact H2|].
  inversion H1 as [|? ? Hs Hf]; subst. constructor.
  - apply IH; auto.
  - apply Forall_app. split; [exact Hf|].
    apply Forall_forall. intros y Hy. apply H12; auto.
Qed.

Lemma StronglySorted_filter (f : A -> bool) (l : list A) :
  StronglySorted R l -> StronglySorted R (filter f l).
Proof.
  induction 1 as [|a l Hs IH Hf]; simpl; [constructor|].
  destruct (f a); [|exact IH]. constructor; [exact IH|].
  apply Forall_forall. intros y Hy. apply filter_In in Hy as [Hy _].
  rewrite Forall_forall in Hf. now apply Hf.
Qed.

End Sorting.

Lemma row_sorted (r s w : nat) :
  StronglySorted cell_lt (map (pair r) (seq s w)).
Proof.
  revert s. induction w as [|w IH]; intros s; simpl; constructor; [apply IH|].
  apply Forall_forall. intros y Hy. apply in_map_iff in Hy as [c [<- Hc]].
  apply in_seq in Hc. right. simpl. lia.
Qed.

Lemma all_cells_sorted (h w : nat) : StronglySorted cell_lt (all_cells h w).
Proof.
  induction h as [|h IH]; [constructor|].
  rewrite all_cells_succ. apply StronglySorted_app_intro;
    [exact IH | apply row_sorted |].
  intros x y Hx Hy. apply in_all_cells in Hx as [Hx _].
  apply in_map_iff in Hy as [c [<- _]]. left. simpl. lia.
Qed.

(** ** Counting the selected cells *)

Lemma ceil_div_succ (n s : Z) :
  0 <= n -> 1 <= s ->
  ceil_div (n + 1) s = ceil_div n s + (if np_mod n s =? 0 then 1 else 0).
Proof.
  intros Hn Hs. unfold ceil_div, np_mod.
  destruct (Z.eqb_spec s 0) as [->|_]; [lia|].
  destruct (Z.eqb_spec (n mod s) 0) as [E|E].
  - apply Z.mod_divide in E; [|lia]. destruct E as [q ->].
    replace (q * s + 1 + s - 1) with ((q + 1) * s) by lia.
    rewrite Z.div_mul by lia.
    replace (q * s + s - 1) with ((s - 1) + q * s) by lia.
    rewrite Z.div_add by lia. rewrite Z.div_small by lia. lia.
  - pose proof (Z.div_mod n s ltac:(lia)) as D.
    pose proof (Z.mod_pos_bound n s ltac:(lia)) as B.
    replace (n + 1 + s - 1) with ((n mod s) + (n / s + 1) * s) by lia.
    replace (n + s - 1) with ((n mod s - 1) + (n / s + 1) * s) by lia.
    rewrite !Z.div_add by lia.
    rewrite (Z.div_small (n mod s)), (Z.div_small (n mod s - 1)) by lia. lia.
Qed.

Lemma count_multiples (s : Z) (n : nat) :
  1 <= s ->
  Z.of_nat (length (filter (fun k => np_mod (Z.of_nat k) s =? 0) (seq 0 n)))
  = ceil_div (Z.of_nat n) s.
Proof.
  intros Hs. induction n as [|n IH].
  - simpl. unfold ceil_div. rewrite Z.div_small; lia.
  - rewrite seq_S, filter_app, length_app, Nat2Z.inj_add, IH.
    rewrite Nat2Z.inj_succ, <- Z.add_1_r, ceil_div_succ by lia.
    simpl. destruct (np_mod (Z.of_nat n) s =? 0); reflexivity.
Qed.

Lemma length_filter_row (res : Z) (r : nat) (cs : list nat) :
  length (filter (on_stride res) (map (pair r) cs))
  = if np_mod (Z.of_nat r) res =? 0
    then length (filter (fun c => np_mod (Z.of_nat c) res =? 0) cs)
    else 0%nat.
Proof.
  destruct (np_mod (Z.of_nat r) res =? 0) eqn:E;
    induction cs as [|c cs IH]; simpl; trivial;
    unfold on_stride at 1; simpl fst; simpl snd; rewrite E;
    destruct (np_mod (Z.of_nat c) res =? 0); simpl; now rewrite IH.
Qed.

Lemma length_filter_grid (res : Z) (rs cs : list nat) :
  length (filter (on_stride res) (flat_map (fun r => map (pair r) cs) rs))
  = (length (filter (fun r => (np_mod (Z.of_nat r) res =? 0)%Z) rs)
     * length (filter (fun c => (np_mod (Z.of_nat c) res =? 0)%Z) cs))%nat.
Proof.
  induction rs as [|r rs IH]; simpl; [reflexivity|].
  rewrite filter_app, length_app, IH, length_filter_row.
  destruct (np_mod (Z.of_nat r) res =? 0); simpl; lia.
Qed.

Lemma length_selected_cells (h w : nat) (s : Z) :
  1 <= s ->
  Z.of_nat (length (selected_cells h w s))
  = ceil_div (Z.of_nat h) s * ceil_div (Z.of_nat w) s.
Proof.
  intros Hs. rewrite selected_cells_filter. unfold all_cells.
  rewrite length_filter_grid, Nat2Z.inj_mul, !count_multiples by exact Hs.
  reflexivity.
Qed.

Lemma in_selected_cells (h w : nat) (s : Z) (rc : nat * nat) :
  1 <= s ->
  In rc (selected_cells h w s)
  <-> (fst rc < h)%nat /\ (snd rc < w)%nat
      /\ Z.of_nat (fst rc) mod s = 0 /\ Z.of_nat (snd rc) mod s = 0.
Proof.
  intros Hs. rewrite selected_cells_filter, filter_In, in_all_cells.
  unfold on_stride, np_mod. destruct (Z.eqb_spec s 0) as [->|_]; [lia|].
  rewrite andb_true_iff, !Z.eqb_eq. tauto.
Qed.

(** ** Comparisons of binary64 values *)

Lemma SFcompare_swap (x y : spec_float) :
  SFcompare y x = option_map CompOpp (SFcompare x y).
Proof.
  destruct x as [s1|s1| |s1 m1 e1], y as [s2|s2| |s2 m2 e2]; simpl;
    try reflexivity;
    try (destruct s1; reflexivity); try (destruct s2; reflexivity);
    try (destruct s1, s2; reflexivity).
  destruct s1, s2; try reflexivity; f_equal;
    rewrite (Z.compare_antisym e1 e2); destruct (e1 ?= e2)%Z; simpl; try reflexivity;
    rewrite (Pos.compare_cont_antisym); simpl; try reflexivity.
  all: rewrite ?CompOpp_involutive; try reflexivity; destruct (Pos.compare_cont Eq m1 m2); reflexivity.
Qed.

Lemma SFcompare_refl (x : spec_float) :
  x <> S754_nan -> SFcompare x x = Some Eq.
Proof.
  destruct x as [s|s| |s m e]; simpl; intros H;
    try (destruct s; reflexivity); [congruence|].
  rewrite Z.compare_refl.
  destruct s; f_equal; rewrite Pos.compare_cont_refl; reflexivity.
Qed.

(** A strict comparison cannot hold in both directions. *)
Lemma ltb_asym (x y : float) : (x <? y)%float = true -> (y <? x)%float = false.
Proof.
  rewrite !ltb_spec. unfold SFltb.
  rewrite (SFcompare_swap (Prim2SF x) (Prim2SF y)).
  destruct (SFcompare (Prim2SF x) (Prim2SF y)) as [[| |]|]; simpl; congruence.
Qed.

Lemma ltb_not_leb (x y : float) : (x <? y)%float = true -> (y <=? x)%float = false.
Proof.
  rewrite ltb_spec, leb_spec. unfold SFltb, SFleb.
  rewrite (SFcompare_swap (Prim2SF x) (Prim2SF y)).
  destruct (SFcompare (Prim2SF x) (Prim2SF y)) as [[| |]|]; simpl; congruence.
Qed.

(** No comparison with a NaN holds. *)
Lemma is_nan_Prim2SF (x : float) :
  PrimFloat.is_nan x = true <-> Prim2SF x = S754_nan.
Proof.
  unfold PrimFloat.is_nan. rewrite eqb_spec. unfold SFeqb. split.
  - intros H. destruct (Prim2SF x) eqn:E; try reflexivity;
      rewrite SFcompare_refl in H by congruence; discriminate.
  - intros ->. reflexivity.
Qed.

Lemma ltb_nan_r (x y : float) :
  PrimFloat.is_nan y = true -> (x <? y)%float = false.
Proof.
  intros H. apply is_nan_Prim2SF in H. rewrite ltb_spec, H.
  unfold SFltb. destruct (Prim2SF x); reflexivity.
Qed.

Lemma ltb_true_not_nan (x y : float) :
  (x <? y)%float = true -> PrimFloat.is_nan y = false.
Proof.
  intros H. destruct (PrimFloat.is_nan y) eqn:E; [|reflexivity].
  rewrite (ltb_nan_r x y E) in H. discriminate.
Qed.

Lemma filter_twice {A : Type} (f g : A -> bool) (l : list A) :
  filter f (filter g l) = filter (fun a => g a && f a) l.
Proof.
  induction l as [|a l IH]; simpl; [reflexivity|].
  destruct (g a); simpl; [destruct (f a)|]; now rewrite IH.
Qed.

(** ** The conversion engine *)



(** C2, as the code has it: the threshold is the constant 0.3 and the
    comparison is strict. A selected cell survives exactly when its
    deformation is not NaN and its coherence is greater than 0.3; no surviving
    cell has a coherence below or equal to 0.3, and a selected cell whose
    coherence is exactly 0.3 is discarded. *)
Theorem validity_filter_strict (d : ndarray float)
    (coh : option (ndarray float)) (t : transform) (cfg : config) :
  wf_ndarray d -> coherence_fits d coh ->
  exists cells,
    surviving_cells d coh (resolution cfg) = Ok cells
    /\ create_point_cloud d coh t cfg
       = Ok (map (point_at d t) cells,
             [("deformation"%string, map (value_at d) cells);
              ("coherence"%string, map (coherence_at coh) cells)])
    /\ (forall rc,
          In rc (selected_cells (nrows d) (ncols d) (resolution cfg)) ->
          (In rc cells
           <-> PrimFloat.is_nan (value_at d rc) = false
               /\ (0.3 <? coherence_at coh rc)%float = true))
    /\ (forall rc,
          In rc cells ->
          (coherence_at coh rc <? 0.3)%float = false
          /\ (coherence_at coh rc <=? 0.3)%float = false)
    /\ (forall rc, coherence_at coh rc = 0.3%float -> ~ In rc cells).
Proof.
  intros Hwf Hfit. exists (kept_cells d coh (resolution cfg)).
  split; [now apply surviving_cells_kept|].
  split; [now apply create_point_cloud_kept|].
  assert (Hin : forall rc, In rc (kept_cells d coh (resolution cfg)) ->
                           (0.3 <? coherence_at coh rc)%float = true).
  { intros rc H. apply filter_In in H as [_ H]. unfold passes in H.
    now apply andb_true_iff in H as [_ H]. }
  split; [|split].
  - intros rc Hsel. unfold kept_cells. rewrite filter_In. unfold passes.
    rewrite andb_true_iff, negb_true_iff. tauto.
  - intros rc H. apply Hin in H. split; [now apply ltb_asym | now apply ltb_not_leb].
  - intros rc E H. apply Hin in H. rewrite E in H. discriminate H.
Qed.

Lemma validity_filter_strict_witness :
  exists cells,
    surviving_cells Sample.special (Some Sample.mixed_coherence) 1 = Ok cells
    /\ create_point_cloud Sample.special (Some Sample.mixed_coherence)
         Sample.rotated Sample.cfg1
       = Ok (map (point_at Sample.special Sample.rotated) cells,
             [("deformation"%string, map (value_at Sample.special) cells);
              ("coherence"%string,
               map (coherence_at (Some Sample.mixed_coherence)) cells)])
    /\ (forall rc,
          In rc (selected_cells 2 3 1) ->
          (In rc cells
           <-> PrimFloat.is_nan (value_at Sample.special rc) = false
               /\ (0.3 <? coherence_at (Some Sample.mixed_coherence) rc)%float
                  = true))
    /\ (forall rc,
          In rc cells ->
          (coherence_at (Some Sample.mixed_coherence) rc <? 0.3)%float = false
          /\ (coherence_at (Some Sample.mixed_coherence) rc <=? 0.3)%float
             = false)
    /\ (forall rc,
          coherence_at (Some Sample.mixed_coherence) rc = 0.3%float ->
          ~ In rc cells).
Proof.
  apply (validity_filter_strict Sample.special (Some Sample.mixed_coherence)
           Sample.rotated Sample.cfg1);
    [reflexivity | repeat split; reflexivity].
Defined.

(** C2, as stated, fails: in a 2 x 3 pair converted with stride 1, the cell
    (0, 2) is selected, its deformation 1.5 is not NaN and its coherence is
    exactly 0.3, so not below the threshold, yet it is not among the
    surviving cells and the cloud has no point for it. *)
Lemma threshold_cell_discarded :
  In (0%nat, 2%nat) (selected_cells 2 3 1)
  /\ PrimFloat.is_nan (value_at Sample.special (0%nat, 2%nat)) = false
  /\ value_at Sample.mixed_coherence (0%nat, 2%nat) = 0.3%float
  /\ (value_at Sample.mixed_coherence (0%nat, 2%nat) <? 0.3)%float = false
  /\ surviving_cells Sample.special (Some Sample.mixed_coherence) 1
     = Ok [(0%nat, 1%nat); (1%nat, 0%nat)]
  /\ create_point_cloud Sample.special (Some Sample.mixed_coherence)
       Sample.north_up Sample.cfg1
     = Ok ([(500030%float, 3000000%float, PrimFloat.infinity);
            (500000%float, 2999970%float, PrimFloat.neg_infinity)],
           [("deformation"%string, [PrimFloat.infinity; PrimFloat.neg_infinity]);
            ("coherence"%string, [0.8%float; 0.31%float])]).
Proof.
  repeat split; try reflexivity. vm_compute. tauto.
Qed.

(** C3: for a stride [s >= 1], the decimation mask selects the cell
    (row, col) of a height x width grid exactly when [row mod s = 0] and
    [col mod s = 0], and the number of selected cells, which is the number of
    values boolean indexing with the mask keeps before the validity filter,
    is [ceil(height/s) * ceil(width/s)]. *)
Theorem decimation_selects_multiples (d : ndarray float) (s : Z) :
  wf_ndarray d -> 1 <= s ->
  (forall row col,
     In (row, col) (selected_cells (nrows d) (ncols d) s)
     <-> (row < nrows d)%nat /\ (col < ncols d)%nat
         /\ Z.of_nat row mod s = 0 /\ Z.of_nat col mod s = 0)
  /\ Z.of_nat (length (selected_cells (nrows d) (ncols d) s))
     = ceil_div (Z.of_nat (nrows d)) s * ceil_div (Z.of_nat (ncols d)) s
  /\ exists z_values,
       bool_index d (decimation_mask s (fst (indices (nrows d) (ncols d)))
                                     (snd (indices (nrows d) (ncols d))))
       = Ok z_values
       /\ Z.of_nat (length z_values)
          = ceil_div (Z.of_nat (nrows d)) s * ceil_div (Z.of_nat (ncols d)) s.
Proof.
  intros Hwf Hs. split; [|split].
  - intros row col. now rewrite in_selected_cells.
  - now apply length_selected_cells.
  - eexists. split.
    + apply (bool_index_decimation d (value_at d)); trivial.
      now apply buf_cells.
    + rewrite length_map. now apply length_selected_cells.
Qed.

Lemma decimation_selects_multiples_witness :
  (forall row col,
     In (row, col) (selected_cells 4 4 3)
     <-> (row < 4)%nat /\ (col < 4)%nat
         /\ Z.of_nat row mod 3 = 0 /\ Z.of_nat col mod 3 = 0)
  /\ Z.of_nat (length (selected_cells 4 4 3)) = ceil_div 4 3 * ceil_div 4 3
  /\ exists z_values,
       bool_index Sample.grid4
         (decimation_mask 3 (fst (indices 4 4)) (snd (indices 4 4)))
       = Ok z_values
       /\ Z.of_nat (length z_values) = ceil_div 4 3 * ceil_div 4 3.
Proof.
  apply (decimation_selects_multiples Sample.grid4 3); [reflexivity | lia].
Defined.

(** C4: the surviving cells, and with them the points and both attribute
    sequences, follow the row-major scan of the grid: they are the cells of
    the scan that pass the two tests, in scan order, so strictly ascending by
    row and then by column; and the result is a function of the inputs. *)
Theorem points_in_row_major_order (d : ndarray float)
    (coh : option (ndarray float)) (t : transform) (cfg : config) :
  wf_ndarray d -> coherence_fits d coh ->
  exists cells,
    surviving_cells d coh (resolution cfg) = Ok cells
    /\ create_point_cloud d coh t cfg
       = Ok (map (point_at d t) cells,
             [("deformation"%string, map (value_at d) cells);
              ("coherence"%string, map (coherence_at coh) cells)])
    /\ cells
       = filter (fun rc => on_stride (resolution cfg) rc && passes d coh rc)
                (all_cells (nrows d) (ncols d))
    /\ StronglySorted cell_lt cells
    /\ forall r1 r2,
         create_point_cloud d coh t cfg = r1 ->
         create_point_cloud d coh t cfg = r2 -> r1 = r2.
Proof.
  intros Hwf Hfit. exists (kept_cells d coh (resolution cfg)).
  split; [now apply surviving_cells_kept|].
  split; [now apply create_point_cloud_kept|].
  unfold kept_cells. rewrite selected_cells_filter.
  split; [|split].
  - apply filter_twice.
  - do 2 apply StronglySorted_filter. apply all_cells_sorted.
  - intros r1 r2 <- <-. reflexivity.
Qed.

Lemma points_in_row_major_order_witness :
  exists cells,
    surviving_cells Sample.special (Some Sample.mixed_coherence) 1 = Ok cells
    /\ create_point_cloud Sample.special (Some Sample.mixed_coherence)
         Sample.rotated Sample.cfg1
       = Ok (map (point_at Sample.special Sample.rotated) cells,
             [("deformation"%string, map (value_at Sample.special) cells);
              ("coherence"%string,
               map (coherence_at (Some Sample.mixed_coherence)) cells)])
    /\ cells
       = filter (fun rc => on_stride 1 rc
                           && passes Sample.special
                                (Some Sample.mixed_coherence) rc)
                (all_cells 2 3)
    /\ StronglySorted cell_lt cells
    /\ forall r1 r2,
         create_point_cloud Sample.special (Some Sample.mixed_coherence)
           Sample.rotated Sample.cfg1 = r1 ->
         create_point_cloud Sample.special (Some Sample.mixed_coherence)
           Sample.rotated Sample.cfg1 = r2 -> r1 = r2.
Proof.
  apply (points_in_row_major_order Sample.special
           (Some Sample.mixed_coherence) Sample.rotated Sample.cfg1);
    [reflexivity | repeat split; reflexivity].
Defined.

(** C7: the 4 x 4 grid with the values 0..15, no coherence raster and
    stride 2: the surviving cells are (0,0), (0,2), (2,0), (2,2) in that
    order, the cloud has exactly the four points of those cells, the
    deformation attribute is 0, 2, 8, 10 and the coherence attribute is 1.0
    for every point. The threshold is the builder's constant 0.3. *)
Theorem scenario_grid4_stride2 (t : transform) :
  surviving_cells Sample.grid4 None 2
  = Ok [(0, 0); (0, 2); (2, 0); (2, 2)]%nat
  /\ create_point_cloud Sample.grid4 None t (mk_config 2 "results")
     = Ok ([(cellToGround 0 0 t, 0%float); (cellToGround 0 2 t, 2%float);
            (cellToGround 2 0 t, 8%float); (cellToGround 2 2 t, 10%float)],
           [("deformation"%string, [0; 2; 8; 10]%float);
            ("coherence"%string, [1; 1; 1; 1]%float)])
  /\ buf Sample.grid4
     = [0; 1; 2; 3; 4; 5; 6; 7; 8; 9; 10; 11; 12; 13; 14; 15]%float.
Proof.
  split; [reflexivity|]. split; [|reflexivity].
  rewrite create_point_cloud_kept by (reflexivity || exact I).
  reflexivity.
Qed.

(** C9: a selected cell whose coherence is NaN is discarded, because the
    strict comparison with 0.3 is false for a NaN; so the coherence attribute
    of the cloud never holds a NaN. *)
Theorem nan_coherence_discarded (d : ndarray float)
    (coh : option (ndarray float)) (t : transform) (cfg : config) :
  wf_ndarray d -> coherence_fits d coh ->
  exists cells pts z_values coherence_values,
    surviving_cells d coh (resolution cfg) = Ok cells
    /\ create_point_cloud d coh t cfg
       = Ok (pts, [("deformation"%string, z_values);
                   ("coherence"%string, coherence_values)])
    /\ (forall rc,
          In rc (selected_cells (nrows d) (ncols d) (resolution cfg)) ->
          PrimFloat.is_nan (coherence_at coh rc) = true -> ~ In rc cells)
    /\ Forall (fun v => PrimFloat.is_nan v = false) coherence_values.
Proof.
  intros Hwf Hfit. eexists (kept_cells d coh (resolution cfg)), _, _, _.
  split; [now apply surviving_cells_kept|].
  split; [now apply create_point_cloud_kept|].
  assert (Hin : forall rc, In rc (kept_cells d coh (resolution cfg)) ->
                           (0.3 <? coherence_at coh rc)%float = true).
  { intros rc H. apply filter_In in H as [_ H]. unfold passes in H.
    now apply andb_true_iff in H as [_ H]. }
  split.
  - intros rc _ Hnan H. apply Hin in H.
    rewrite (ltb_nan_r _ _ Hnan) in H. discriminate H.
  - apply Forall_forall. intros v Hv. apply in_map_iff in Hv as [rc [<- H]].
    apply Hin in H. now apply ltb_true_not_nan in H.
Qed.

Lemma nan_coherence_discarded_witness :
  exists cells pts z_values coherence_values,
    surviving_cells Sample.special (Some Sample.mixed_coherence) 1 = Ok cells
    /\ create_point_cloud Sample.special (Some Sample.mixed_coherence)
         Sample.rotated Sample.cfg1
       = Ok (pts, [("deformation"%string, z_values);
                   ("coherence"%string, coherence_values)])
    /\ (forall rc,
          In rc (selected_cells 2 3 1) ->
          PrimFloat.is_nan (coherence_at (Some Sample.mixed_coherence) rc)
          = true -> ~ In rc cells)
    /\ Forall (fun v => PrimFloat.is_nan v = false) coherence_values.
Proof.
  apply (nan_coherence_discarded Sample.special (Some Sample.mixed_coherence)
           Sample.rotated Sample.cfg1);
    [reflexivity | repeat split; reflexivity].
Defined.

(** C10: only a NaN deformation counts as missing. A selected cell whose
    deformation is plus or minus infinity and whose coherence is greater than
    the threshold yields a point: at some position of the cloud stand the
    cell's ground coordinates with the infinite value as z, and the
    deformation attribute holds the same infinite value there. *)
Theorem infinite_deformation_kept (d : ndarray float)
    (coh : option (ndarray float)) (t : transform) (cfg : config)
    (rc : nat * nat) :
  wf_ndarray d -> coherence_fits d coh ->
  In rc (selected_cells (nrows d) (ncols d) (resolution cfg)) ->
  value_at d rc = PrimFloat.infinity \/ value_at d rc = PrimFloat.neg_infinity ->
  (0.3 <? coherence_at coh rc)%float = true ->
  exists cells pts z_values coherence_values k,
    surviving_cells d coh (resolution cfg) = Ok cells
    /\ create_point_cloud d coh t cfg
       = Ok (pts, [("deformation"%string, z_values);
                   ("coherence"%string, coherence_values)])
    /\ nth_error cells k = Some rc
    /\ nth_error pts k
       = Some (cellToGround (fst rc) (snd rc) t, value_at d rc)
    /\ nth_error z_values k = Some (value_at d rc).
Proof.
  intros Hwf Hfit Hsel Hinf Hcoh.
  assert (Hkept : In rc (kept_cells d coh (resolution cfg))).
  { apply filter_In. split; [exact Hsel|]. unfold passes.
    rewrite Hcoh. destruct Hinf as [-> | ->]; reflexivity. }
  apply In_nth_error in Hkept as [k Hk].
  eexists (kept_cells d coh (resolution cfg)), _, _, _, k.
  split; [now apply surviving_cells_kept|].
  split; [now apply create_point_cloud_kept|].
  split; [exact Hk|].
  rewrite !nth_error_map, Hk. split; reflexivity.
Qed.

Lemma infinite_deformation_kept_witness :
  exists cells pts z_values coherence_values k,
    surviving_cells Sample.special (Some Sample.mixed_coherence) 1 = Ok cells
    /\ create_point_cloud Sample.special (Some Sample.mixed_coherence)
         Sample.rotated Sample.cfg1
       = Ok (pts, [("deformation"%string, z_values);
                   ("coherence"%string, coherence_values)])
    /\ nth_error cells k = Some (1%nat, 0%nat)
    /\ nth_error pts k
       = Some (cellToGround 1 0 Sample.rotated, PrimFloat.neg_infinity)
    /\ nth_error z_values k = Some PrimFloat.neg_infinity.
Proof.
  apply (infinite_deformation_kept Sample.special
           (Some Sample.mixed_coherence) Sample.rotated Sample.cfg1
           (1%nat, 0%nat));
    [ reflexivity | repeat split; reflexivity | vm_compute; tauto
    | right; reflexivity | reflexivity ].
Defined.

(** ** Shapes, exceptions and the driver *)

Lemma bool_index_same_shape {A : Type} (a : ndarray A) (m : ndarray bool) :
  nrows a = nrows m -> ncols a = ncols m ->
  bool_index a m = Ok (select (buf m) (buf a)).
Proof.
  intros Hr Hc. unfold bool_index, same_shape.
  now rewrite Hr, Hc, !Nat.eqb_refl.
Qed.

Lemma bool_index_other_shape {A : Type} (a : ndarray A) (m : ndarray bool) :
  shape a <> shape m -> bool_index a m = Raise IndexError.
Proof.
  intros H. unfold bool_index, same_shape.
  destruct (Nat.eqb_spec (nrows a) (nrows m)) as [Hr|Hr]; [|reflexivity].
  destruct (Nat.eqb_spec (ncols a) (ncols m)) as [Hc|Hc]; [|reflexivity].
  exfalso. apply H. unfold shape. now rewrite Hr, Hc.
Qed.

(** A coherence raster of another shape makes the builder raise. *)
Lemma create_point_cloud_mismatch (d c : ndarray float) (t : transform)
    (cfg : config) :
  shape c <> shape d ->
  create_point_cloud d (Some c) t cfg = Raise IndexError.
Proof.
  intros H. unfold create_point_cloud.
  change (shape d) with (nrows d, ncols d). cbv iota beta.
  change (indices (nrows d) (ncols d))
    with (fst (indices (nrows d) (ncols d)), snd (indices (nrows d) (ncols d))).
  cbv iota beta zeta.
  rewrite (bool_index_same_shape (x_coords_of _ _ _)) by reflexivity.
  cbn [bind].
  rewrite (bool_index_same_shape (y_coords_of _ _ _)) by reflexivity.
  cbn [bind].
  rewrite (bool_index_same_shape d) by reflexivity. cbn [bind].
  rewrite bool_index_other_shape by exact H. reflexivity.
Qed.

(** The three ways one entry of the listing moves the loop on. *)
Lemma process_all_step (input_dir output_dir : string) (cfg : config)
    (name : string) (rest : list string) (count : nat) (w : world) :
  endswith name "_unwrap.geo" = true ->
  process_all input_dir output_dir cfg (name :: rest) count w
  = match process_deformation_file (path_join input_dir name)
            (path_join input_dir (replace name "_unwrap.geo" "_corr.geo"))
            output_dir cfg w with
    | (Ok ok, w') =>
        process_all input_dir output_dir cfg rest
          (if ok then S count else count) w'
    | (Raise e, w') => (Raise e, w')
    end.
Proof.
  intros H. cbn [process_all]. rewrite H. reflexivity.
Qed.

(** C5, as the code has it: a coherence raster whose dimensions differ from
    the deformation raster's makes the conversion fail with numpy's
    [IndexError], never truncating or broadcasting; nothing catches it, so
    it leaves [process_deformation_file] and the loop of [main] with the
    world untouched, and the entries after the pair are not processed. *)
Theorem dimension_mismatch_raises (d c : ndarray float) (t : transform)
    (cfg : config) (w : world) (input_dir output_dir name crs : string)
    (rest : list string) (count : nat) :
  shape c <> shape d ->
  endswith name "_unwrap.geo" = true ->
  String.eqb (path_join input_dir (replace name "_unwrap.geo" "_corr.geo")) ""
  = false ->
  read_deformation_data w (path_join input_dir name) = Some (d, t, crs) ->
  read_coherence_data w
    (path_join input_dir (replace name "_unwrap.geo" "_corr.geo")) = Some c ->
  create_point_cloud d (Some c) t cfg = Raise IndexError
  /\ process_deformation_file (path_join input_dir name)
       (path_join input_dir (replace name "_unwrap.geo" "_corr.geo"))
       output_dir cfg w
     = (Raise IndexError, w)
  /\ process_all input_dir output_dir cfg (name :: rest) count w
     = (Raise IndexError, w).
Proof.
  intros Hshape Hname Hne Hd Hc.
  assert (Hcpc := create_point_cloud_mismatch d c t cfg Hshape).
  assert (Hp : process_deformation_file (path_join input_dir name)
                 (path_join input_dir (replace name "_unwrap.geo" "_corr.geo"))
                 output_dir cfg w = (Raise IndexError, w)).
  { unfold process_deformation_file. rewrite Hd, Hne. cbn [negb andb].
    unfold path_exists. unfold read_coherence_data in Hc |- *.
    destruct (contents w _) as [[]|]; try discriminate Hc.
    injection Hc as ->. unfold io_bind, lift. now rewrite Hcpc. }
  split; [exact Hcpc|]. split; [exact Hp|].
  rewrite process_all_step by exact Hname. now rewrite Hp.
Qed.

Lemma dimension_mismatch_raises_witness :
  create_point_cloud Sample.grid4 (Some (Sample.uniform 3 4 0.9))
    Sample.north_up Sample.cfg2 = Raise IndexError
  /\ process_deformation_file "in/20210101_unwrap.geo" "in/20210101_corr.geo"
       "out" Sample.cfg2 Sample.mismatch_world
     = (Raise IndexError, Sample.mismatch_world)
  /\ process_all "in" "out" Sample.cfg2
       ["20210101_unwrap.geo"; "20210113_unwrap.geo"]%string 0
       Sample.mismatch_world
     = (Raise IndexError, Sample.mismatch_world).
Proof.
  apply (dimension_mismatch_raises Sample.grid4 (Sample.uniform 3 4 0.9)
           Sample.north_up Sample.cfg2 Sample.mismatch_world "in" "out"
           "20210101_unwrap.geo" "utm50" ["20210113_unwrap.geo"%string] 0%nat);
    [ discriminate | reflexivity | reflexivity | reflexivity | reflexivity ].
Defined.

(** C5, as stated, fails: with a 3 x 4 coherence raster against a 4 x 4
    deformation raster in the first pair of a directory, [main] ends with
    the [IndexError] instead of a report, and the second pair, which converts
    on its own, gets no output file. *)
Lemma mismatch_aborts_main :
  fst (main Sample.run_args Sample.mismatch_world) = Raise IndexError
  /\ fst (process_deformation_file "in/20210113_unwrap.geo"
            "in/20210113_corr.geo" "out" Sample.cfg2 Sample.mismatch_world)
     = Ok true
  /\ contents (snd (main Sample.run_args Sample.mismatch_world))
       "out/20210113_unwrap.las" = None
  /\ contents (snd (main Sample.run_args Sample.mismatch_world))
       "out/20210113_unwrap.xyz" = None.
Proof.
  repeat split; vm_compute; reflexivity.
Qed.

(** Attribute columns as long as the point columns are all accepted. *)
Lemma add_attributes_ok (attrs : attributes) (l : LasData) :
  Forall (fun a => length (snd a) = length (las_x l)) attrs ->
  exists l', add_attributes l attrs = Ok l' /\ las_x l' = las_x l.
Proof.
  revert l. induction attrs as [|[n v] attrs IH]; intros l H.
  - exists l. split; reflexivity.
  - inversion H as [|? ? Hv Hrest]; subst. simpl in Hv.
    cbn [add_attributes]. unfold set_extra. cbn [las_x add_extra_dim].
    rewrite Hv, Nat.eqb_refl. cbn [bind].
    match goal with |- exists _, add_attributes ?m _ = _ /\ _ =>
      destruct (IH m) as (l' & Hl' & Hx); [exact Hrest|]
    end.
    exists l'. split; [exact Hl' | exact Hx].
Qed.

(** Writing to a path that cannot be written raises and changes nothing. *)
Lemma save_to_las_unwritable (pts : points) (cells : list (nat * nat))
    (f g : nat * nat -> float) (path : string) (w : world) :
  writable w path = false ->
  length pts = length cells ->
  save_to_las pts [("deformation"%string, map f cells);
                   ("coherence"%string, map g cells)] path w
  = (Raise OSError, w).
Proof.
  intros Hw Hlen. unfold save_to_las, io_bind, lift.
  match goal with |- context [add_attributes ?m ?a] =>
    destruct (add_attributes_ok a m) as (l' & -> & _)
  end.
  - repeat constructor; simpl; now rewrite !length_map.
  - unfold las_write, write_file. now rewrite Hw.
Qed.

(** C6, as the code has it: only the readers catch. An unreadable
    deformation raster makes [process_deformation_file] return [False] with
    the world untouched, and the loop goes on with the same count, as it
    does past a name without the [_unwrap.geo] suffix; a conversion that
    returns moves the loop on with the count advanced on [True]; at the end
    of the listing the count is the result; an exception of the conversion, such as the [OSError] of a LAS
    path that cannot be written, is caught nowhere: it ends the loop at once
    with the remaining entries unprocessed, and [main] is that loop run from
    a count of zero, so it reports nothing then. *)
Theorem orchestrator_error_policy (a : args) (cfg : config)
    (input_dir output_dir name : string) (names rest : list string)
    (count : nat) (w0 w : world) :
  endswith name "_unwrap.geo" = true ->
  load_config (arg_config a) w0 = (Ok cfg, w0) ->
  input_dir = arg_or (arg_input_dir a) (path_join (results cfg) "deformation") ->
  output_dir = arg_or (arg_output_dir a) (path_join (results cfg) "point_cloud") ->
  listing w0 input_dir = Some names ->
  main a w0 = process_all input_dir output_dir cfg names 0 w0
  /\ process_all input_dir output_dir cfg [] count w = (Ok count, w)
  /\ (forall other,
        endswith other "_unwrap.geo" = false ->
        process_all input_dir output_dir cfg (other :: rest) count w
        = process_all input_dir output_dir cfg rest count w)
  /\ (read_deformation_data w (path_join input_dir name) = None ->
      process_deformation_file (path_join input_dir name)
        (path_join input_dir (replace name "_unwrap.geo" "_corr.geo"))
        output_dir cfg w
      = (Ok false, w)
      /\ process_all input_dir output_dir cfg (name :: rest) count w
         = process_all input_dir output_dir cfg rest count w)
  /\ (forall ok w',
        process_deformation_file (path_join input_dir name)
          (path_join input_dir (replace name "_unwrap.geo" "_corr.geo"))
          output_dir cfg w
        = (Ok ok, w') ->
        process_all input_dir output_dir cfg (name :: rest) count w
        = process_all input_dir output_dir cfg rest
            (if ok then S count else count) w')
  /\ (forall e w',
        process_deformation_file (path_join input_dir name)
          (path_join input_dir (replace name "_unwrap.geo" "_corr.geo"))
          output_dir cfg w
        = (Raise e, w') ->
        process_all input_dir output_dir cfg (name :: rest) count w
        = (Raise e, w'))
  /\ (forall d t crs,
        read_deformation_data w (path_join input_dir name) = Some (d, t, crs) ->
        wf_ndarray d ->
        path_exists w
          (path_join input_dir (replace name "_unwrap.geo" "_corr.geo"))
        = false ->
        writable w
          (path_join output_dir
             (fst (splitext (basename (path_join input_dir name))) ++ ".las"))
        = false ->
        process_all input_dir output_dir cfg (name :: rest) count w
        = (Raise OSError, w)).
Proof.
  intros Hname Hcfg Hin Hout Hls.
  split; [|split; [|split; [|split; [|split; [|split]]]]].
  - unfold main, io_bind. rewrite Hcfg. rewrite <- Hin, <- Hout.
    unfold listdir. now rewrite Hls.
  - reflexivity.
  - intros other Hother. cbn [process_all]. now rewrite Hother.
  - intros Hnone.
    assert (Hp : process_deformation_file (path_join input_dir name)
                   (path_join input_dir (replace name "_unwrap.geo" "_corr.geo"))
                   output_dir cfg w = (Ok false, w)).
    { unfold process_deformation_file. now rewrite Hnone. }
    split; [exact Hp|]. rewrite process_all_step by exact Hname.
    now rewrite Hp.
  - intros ok w' Hp. rewrite process_all_step by exact Hname. now rewrite Hp.
  - intros e w' Hp. rewrite process_all_step by exact Hname. now rewrite Hp.
  - intros d t crs Hd Hwf Hnocoh Hw.
    rewrite process_all_step by exact Hname.
    unfold process_deformation_file. rewrite Hd, Hnocoh, andb_false_r.
    unfold io_bind at 1. unfold lift.
    rewrite (create_point_cloud_kept d None t cfg Hwf I).
    unfold io_bind.
    rewrite save_to_las_unwritable; [reflexivity | exact Hw | now rewrite length_map].
Qed.

Lemma orchestrator_error_policy_witness :
  main Sample.run_args Sample.readonly_world
  = process_all "in" "out" Sample.cfg2
      ["broken_unwrap.geo"; "20210101_unwrap.geo"; "20210113_unwrap.geo"]%string
      0 Sample.readonly_world
  /\ process_all "in" "out" Sample.cfg2
       ["20210101_unwrap.geo"; "20210113_unwrap.geo"]%string 0
       Sample.readonly_world
     = (Raise OSError, Sample.readonly_world).
Proof.
  pose proof (orchestrator_error_policy Sample.run_args Sample.cfg2
                "in" "out" "20210101_unwrap.geo"
                ["broken_unwrap.geo"; "20210101_unwrap.geo";
                 "20210113_unwrap.geo"]%string
                ["20210113_unwrap.geo"%string] 0%nat
                Sample.readonly_world Sample.readonly_world
                eq_refl eq_refl eq_refl eq_refl eq_refl)
    as (Hmain & _ & _ & _ & _ & _ & Hraise).
  split; [exact Hmain|].
  apply (Hraise Sample.grid4 Sample.north_up "utm50"%string);
    reflexivity.
Defined.

(** C6, as stated, fails: when the LAS file of the first good pair cannot be
    written, the [OSError] of the writer ends [main] without a report, and
    the pair after it, which converts on its own, gets no output file. *)
Lemma writer_error_aborts_main :
  fst (main Sample.run_args Sample.readonly_world) = Raise OSError
  /\ fst (process_deformation_file "in/20210113_unwrap.geo"
            "in/20210113_corr.geo" "out" Sample.cfg2 Sample.readonly_world)
     = Ok true
  /\ contents (snd (main Sample.run_args Sample.readonly_world))
       "out/20210113_unwrap.las" = None
  /\ contents (snd (main Sample.run_args Sample.readonly_world))
       "out/20210113_unwrap.xyz" = None.
Proof.
  repeat split; vm_compute; reflexivity.
Qed.



(** ** More on the builder: what every returned cloud satisfies *)

Lemma length_select_le {A : Type} (m : list bool) (l : list A) :
  (length (select m l) <= length l)%nat.
Proof.
  revert l. induction m as [|b m IH]; intros [|a l]; simpl; try lia.
  specialize (IH l). destruct b; simpl; lia.
Qed.

Lemma length_select_same {A B : Type} (m : list bool) (l1 : list A)
    (l2 : list B) :
  length l1 = length l2 -> length (select m l1) = length (select m l2).
Proof.
  revert l1 l2. induction m as [|b m IH]; intros [|a l1] [|c l2] H;
    simpl in *; try reflexivity; try discriminate.
  injection H as H. destruct b; simpl; now rewrite (IH l1 l2 H).
Qed.

Lemma map_snd_combine_same {A B : Type} (l1 : list A) (l2 : list B) :
  length l1 = length l2 -> map snd (combine l1 l2) = l2.
Proof.
  revert l2. induction l1 as [|a l1 IH]; intros [|b l2] H; simpl in *;
    try reflexivity; try discriminate.
  injection H as H. now rewrite IH.
Qed.

Lemma valid_mask_deformation (zs cs : list float) :
  Forall (fun z => PrimFloat.is_nan z = false)
         (select (valid_mask_of zs cs) zs).
Proof.
  revert cs. induction zs as [|z zs IH]; intros [|c cs]; simpl;
    try constructor.
  destruct (PrimFloat.is_nan z) eqn:E; simpl; [apply IH|].
  destruct (0.3 <? c)%float; [constructor; [exact E | apply IH] | apply IH].
Qed.

Lemma valid_mask_coherence (zs cs : list float) :
  Forall (fun c => (0.3 <? c)%float = true)
         (select (valid_mask_of zs cs) cs).
Proof.
  revert cs. induction zs as [|z zs IH]; intros [|c cs]; simpl;
    try constructor.
  destruct (0.3 <? c)%float eqn:E; rewrite ?andb_false_r; [|apply IH].
  destruct (PrimFloat.is_nan z); simpl; [apply IH|].
  constructor; [exact E | apply IH].
Qed.

(** The four indexings with the validity mask succeed together only on
    columns as long as the mask. *)
Lemma validity_indexing_inv (xs ys zs cs : list float) (pts : points)
    (attrs : attributes) :
  (x_coords <- bool_index1 xs (valid_mask_of zs cs) ;;
   y_coords <- bool_index1 ys (valid_mask_of zs cs) ;;
   z_values <- bool_index1 zs (valid_mask_of zs cs) ;;
   coherence_values <- bool_index1 cs (valid_mask_of zs cs) ;;
   Ok (vstack3_T x_coords y_coords z_values,
       [("deformation"%string, z_values);
        ("coherence"%string, coherence_values)]))
  = Ok (pts, attrs) ->
  length ys = length xs /\ length zs = length xs /\ length cs = length xs
  /\ pts = vstack3_T (select (valid_mask_of zs cs) xs)
                     (select (valid_mask_of zs cs) ys)
                     (select (valid_mask_of zs cs) zs)
  /\ attrs = [("deformation"%string, select (valid_mask_of zs cs) zs);
              ("coherence"%string, select (valid_mask_of zs cs) cs)].
Proof.
  generalize (valid_mask_of zs cs) as vm. intros vm. unfold bool_index1.
  destruct (Nat.eqb_spec (length xs) (length vm)) as [Hx|]; cbn [bind];
    [|discriminate].
  destruct (Nat.eqb_spec (length ys) (length vm)) as [Hy|]; cbn [bind];
    [|discriminate].
  destruct (Nat.eqb_spec (length zs) (length vm)) as [Hz|]; cbn [bind];
    [|discriminate].
  destruct (Nat.eqb_spec (length cs) (length vm)) as [Hc|]; cbn [bind];
    [|discriminate].
  intros H. injection H as <- <-.
  rewrite Hx, Hy, Hz, Hc. repeat split; reflexivity.
Qed.

(** What a returned cloud is made of, whatever the inputs: four columns of
    one length, cut by one validity mask. *)
Lemma create_point_cloud_inv (d : ndarray float) (coh : option (ndarray float))
    (t : transform) (cfg : config) (pts : points) (attrs : attributes) :
  create_point_cloud d coh t cfg = Ok (pts, attrs) ->
  exists xs ys zs cs,
    length xs = length (selected_cells (nrows d) (ncols d) (resolution cfg))
    /\ length ys = length xs /\ length zs = length xs /\ length cs = length xs
    /\ pts = vstack3_T (select (valid_mask_of zs cs) xs)
                       (select (valid_mask_of zs cs) ys)
                       (select (valid_mask_of zs cs) zs)
    /\ attrs = [("deformation"%string, select (valid_mask_of zs cs) zs);
                ("coherence"%string, select (valid_mask_of zs cs) cs)].
Proof.
  unfold create_point_cloud, shape.
  change (indices (nrows d) (ncols d))
    with (fst (indices (nrows d) (ncols d)), snd (indices (nrows d) (ncols d))).
  cbv iota beta zeta.
  rewrite (bool_index_decimation _
             (fun rc => fst (cellToGround (fst rc) (snd rc) t))
             (nrows d) (ncols d) (resolution cfg));
    [| reflexivity | reflexivity
     | unfold x_coords_of; now rewrite amap2_indices ].
  cbn [bind].
  rewrite (bool_index_decimation _
             (fun rc => snd (cellToGround (fst rc) (snd rc) t))
             (nrows d) (ncols d) (resolution cfg));
    [| reflexivity | reflexivity
     | unfold y_coords_of; now rewrite amap2_indices ].
  cbn [bind].
  destruct (bool_index d _) as [zs|e]; cbn [bind]; [|discriminate].
  assert (Htail : forall cs,
    (x_coords <-
       bool_index1
         (map (fun rc => fst (cellToGround (fst rc) (snd rc) t))
              (selected_cells (nrows d) (ncols d) (resolution cfg)))
         (valid_mask_of zs cs) ;;
     y_coords <-
       bool_index1
         (map (fun rc => snd (cellToGround (fst rc) (snd rc) t))
              (selected_cells (nrows d) (ncols d) (resolution cfg)))
         (valid_mask_of zs cs) ;;
     z_values <- bool_index1 zs (valid_mask_of zs cs) ;;
     coherence_values <- bool_index1 cs (valid_mask_of zs cs) ;;
     Ok (vstack3_T x_coords y_coords z_values,
         [("deformation"%string, z_values);
          ("coherence"%string, coherence_values)]))
    = Ok (pts, attrs) ->
    exists xs ys zs cs,
      length xs = length (selected_cells (nrows d) (ncols d) (resolution cfg))
      /\ length ys = length xs /\ length zs = length xs /\ length cs = length xs
      /\ pts = vstack3_T (select (valid_mask_of zs cs) xs)
                         (select (valid_mask_of zs cs) ys)
                         (select (valid_mask_of zs cs) zs)
      /\ attrs = [("deformation"%string, select (valid_mask_of zs cs) zs);
                  ("coherence"%string, select (valid_mask_of zs cs) cs)]).
  { intros cs H. apply validity_indexing_inv in H as (Hy & Hz & Hc & Hp & Ha).
    exists (map (fun rc => fst (cellToGround (fst rc) (snd rc) t))
                (selected_cells (nrows d) (ncols d) (resolution cfg))),
           (map (fun rc => snd (cellToGround (fst rc) (snd rc) t))
                (selected_cells (nrows d) (ncols d) (resolution cfg))),
           zs, cs.
    split; [apply length_map|]. repeat split; assumption. }
  destruct coh as [c|].
  - destruct (bool_index c _) as [cs|e]; cbn [bind]; [|discriminate].
    apply Htail.
  - cbn [bind]. apply Htail.
Qed.

(** X1: whenever the builder returns, its attribute set is exactly
    [deformation] then [coherence], each with one value per point, and the
    deformation attribute is the z column of the points, index by index. *)
Theorem attributes_aligned_with_points (d : ndarray float)
    (coh : option (ndarray float)) (t : transform) (cfg : config)
    (pts : points) (attrs : attributes) :
  create_point_cloud d coh t cfg = Ok (pts, attrs) ->
  exists z_values coherence_values,
    attrs = [("deformation"%string, z_values);
             ("coherence"%string, coherence_values)]
    /\ length z_values = length pts
    /\ length coherence_values = length pts
    /\ map snd pts = z_values.
Proof.
  intros H.
  apply create_point_cloud_inv in H
    as (xs & ys & zs & cs & _ & Hy & Hz & Hc & -> & ->).
  eexists _, _. split; [reflexivity|].
  unfold vstack3_T.
  assert (Hxy : length (combine (select (valid_mask_of zs cs) xs)
                                (select (valid_mask_of zs cs) ys))
                = length (select (valid_mask_of zs cs) zs)).
  { rewrite length_combine.
    rewrite (length_select_same _ ys xs Hy), (length_select_same _ zs xs Hz).
    apply Nat.min_id. }
  split; [|split].
  - rewrite length_combine, Hxy. now rewrite Nat.min_id.
  - rewrite length_combine, Hxy, Nat.min_id.
    apply length_select_same. congruence.
  - now apply map_snd_combine_same.
Qed.

Lemma attributes_aligned_with_points_witness :
  exists z_values coherence_values,
    [("deformation"%string, [PrimFloat.infinity; PrimFloat.neg_infinity]);
     ("coherence"%string, [0.8%float; 0.31%float])]
    = [("deformation"%string, z_values);
       ("coherence"%string, coherence_values)]
    /\ length z_values = 2%nat
    /\ length coherence_values = 2%nat
    /\ [PrimFloat.infinity; PrimFloat.neg_infinity] = z_values.
Proof.
  apply (attributes_aligned_with_points Sample.special
           (Some Sample.mixed_coherence) Sample.north_up Sample.cfg1
           [(500030%float, 3000000%float, PrimFloat.infinity);
            (500000%float, 2999970%float, PrimFloat.neg_infinity)]).
  reflexivity.
Defined.

(** X2: whatever the rasters, their shapes and the stride, no point of a
    returned cloud has a NaN as z or as deformation, and every coherence
    value of a returned cloud is greater than 0.3. *)
Theorem returned_values_are_valid (d : ndarray float)
    (coh : option (ndarray float)) (t : transform) (cfg : config)
    (pts : points) (z_values coherence_values : list float) :
  create_point_cloud d coh t cfg
  = Ok (pts, [("deformation"%string, z_values);
              ("coherence"%string, coherence_values)]) ->
  Forall (fun p => PrimFloat.is_nan (snd p) = false) pts
  /\ Forall (fun z => PrimFloat.is_nan z = false) z_values
  /\ Forall (fun c => (0.3 <? c)%float = true) coherence_values.
Proof.
  intros H.
  apply create_point_cloud_inv in H
    as (xs & ys & zs & cs & _ & Hy & Hz & Hc & Hp & Ha).
  injection Ha as -> ->.
  assert (Hsnd : map snd pts = select (valid_mask_of zs cs) zs).
  { subst pts. unfold vstack3_T. apply map_snd_combine_same.
    rewrite length_combine.
    rewrite (length_select_same _ ys xs Hy), (length_select_same _ zs xs Hz).
    apply Nat.min_id. }
  split; [|split].
  - pose proof (valid_mask_deformation zs cs) as V. rewrite <- Hsnd in V.
    now rewrite Forall_map in V.
  - apply valid_mask_deformation.
  - apply valid_mask_coherence.
Qed.

Lemma returned_values_are_valid_witness :
  Forall (fun p => PrimFloat.is_nan (snd p) = false)
    [(500030%float, 3000000%float, PrimFloat.infinity);
     (500000%float, 2999970%float, PrimFloat.neg_infinity)]
  /\ Forall (fun z => PrimFloat.is_nan z = false)
       [PrimFloat.infinity; PrimFloat.neg_infinity]
  /\ Forall (fun c => (0.3 <? c)%float = true) [0.8%float; 0.31%float].
Proof.
  apply (returned_values_are_valid Sample.special
           (Some Sample.mixed_coherence) Sample.north_up Sample.cfg1).
  reflexivity.
Defined.

Lemma filter_all {A : Type} (f : A -> bool) (l : list A) :
  Forall (fun a => f a = true) l -> filter f l = l.
Proof.
  induction 1 as [|a l Ha _ IH]; simpl; [reflexivity|].
  now rewrite Ha, IH.
Qed.

(** X3: a returned cloud never has more points than the decimation
    selects, [ceil(height/s) * ceil(width/s)] for a stride [s >= 1], nor
    more than the grid has cells. *)
Theorem point_count_bounded (d : ndarray float) (coh : option (ndarray float))
    (t : transform) (cfg : config) (pts : points) (attrs : attributes) :
  create_point_cloud d coh t cfg = Ok (pts, attrs) ->
  1 <= resolution cfg ->
  Z.of_nat (length pts)
  <= ceil_div (Z.of_nat (nrows d)) (resolution cfg)
     * ceil_div (Z.of_nat (ncols d)) (resolution cfg)
  /\ (length pts <= nrows d * ncols d)%nat.
Proof.
  intros H Hs.
  apply create_point_cloud_inv in H
    as (xs & ys & zs & cs & Hx & _ & _ & _ & -> & _).
  assert (Hlen : (length (vstack3_T (select (valid_mask_of zs cs) xs)
                                    (select (valid_mask_of zs cs) ys)
                                    (select (valid_mask_of zs cs) zs))
                  <= length (selected_cells (nrows d) (ncols d)
                                            (resolution cfg)))%nat).
  { unfold vstack3_T. rewrite !length_combine, <- Hx.
    pose proof (length_select_le (valid_mask_of zs cs) xs). lia. }
  split.
  - rewrite <- length_selected_cells by exact Hs. lia.
  - etransitivity; [exact Hlen|].
    rewrite selected_cells_filter, <- (length_all_cells (nrows d) (ncols d)).
    apply filter_length_le.
Qed.

Lemma point_count_bounded_witness :
  Z.of_nat (length [(500000%float, 3000000%float, 0%float);
                    (500060%float, 3000000%float, 2%float);
                    (500000%float, 2999940%float, 8%float);
                    (500060%float, 2999940%float, 10%float)])
  <= ceil_div 4 2 * ceil_div 4 2
  /\ (length [(500000%float, 3000000%float, 0%float);
              (500060%float, 3000000%float, 2%float);
              (500000%float, 2999940%float, 8%float);
              (500060%float, 2999940%float, 10%float)] <= 4 * 4)%nat.
Proof.
  apply (point_count_bounded Sample.grid4 None Sample.north_up Sample.cfg2 _
           [("deformation"%string, [0; 2; 8; 10]%float);
            ("coherence"%string, [1; 1; 1; 1]%float)]);
    [reflexivity | simpl; lia].
Defined.

(** X4: with stride 1, no coherence raster and no NaN in the deformation
    raster, nothing is lost: the cloud has one point per cell in row-major
    order, the deformation attribute is the raster's buffer and the coherence
    attribute is 1.0 throughout. *)
Theorem full_resolution_is_lossless (d : ndarray float) (t : transform)
    (cfg : config) :
  wf_ndarray d -> resolution cfg = 1 ->
  Forall (fun z => PrimFloat.is_nan z = false) (buf d) ->
  create_point_cloud d None t cfg
  = Ok (map (point_at d t) (all_cells (nrows d) (ncols d)),
        [("deformation"%string, buf d);
         ("coherence"%string, ones_like (buf d))]).
Proof.
  intros Hwf Hres Hnan.
  rewrite create_point_cloud_kept by (trivial; exact I).
  assert (Hall : kept_cells d None (resolution cfg)
                 = all_cells (nrows d) (ncols d)).
  { unfold kept_cells. rewrite selected_cells_filter, Hres.
    rewrite (filter_all (on_stride 1)).
    - apply filter_all. rewrite (buf_cells PrimFloat.zero d Hwf) in Hnan.
      rewrite Forall_map in Hnan. eapply Forall_impl; [|exact Hnan].
      intros rc Hrc. unfold passes, value_at. rewrite Hrc. reflexivity.
    - apply Forall_forall. intros rc _. unfold on_stride, np_mod. simpl.
      now rewrite !Z.mod_1_r. }
  rewrite Hall. unfold ones_like.
  set (cells := all_cells (nrows d) (ncols d)).
  assert (Hbuf : buf d = map (value_at d) cells)
    by (now apply buf_cells).
  rewrite Hbuf, map_map. reflexivity.
Qed.

Lemma full_resolution_is_lossless_witness :
  create_point_cloud Sample.grid4 None Sample.rotated Sample.cfg1
  = Ok (map (point_at Sample.grid4 Sample.rotated) (all_cells 4 4),
        [("deformation"%string, buf Sample.grid4);
         ("coherence"%string, ones_like (buf Sample.grid4))]).
Proof.
  apply (full_resolution_is_lossless Sample.grid4 Sample.rotated Sample.cfg1);
    [reflexivity | reflexivity |].
  repeat constructor.
Defined.

(** ** Paths of the outputs *)

Lemma append_inv_head (a x y : string) :
  (a ++ x)%string = (a ++ y)%string -> x = y.
Proof.
  induction a as [|c a IH]; simpl; intros H; [exact H|].
  injection H as H. now apply IH.
Qed.

Lemma rsplit_at_none_append (sep : ascii) (a b : string) :
  rsplit_at sep b = None ->
  rsplit_at sep (a ++ b)
  = match rsplit_at sep a with
    | Some (x, y) => Some (x, (y ++ b)%string)
    | None => None
    end.
Proof.
  intros Hb. induction a as [|c a IH]; simpl; [exact Hb|].
  rewrite IH. destruct (rsplit_at sep a) as [[x y]|]; [reflexivity|].
  destruct (Ascii.eqb c sep); reflexivity.
Qed.

Lemma rsplit_at_last (sep : ascii) (a b : string) :
  rsplit_at sep b = None ->
  rsplit_at sep (a ++ String sep b) = Some (a, b).
Proof.
  intros Hb. induction a as [|c a IH]; simpl.
  - now rewrite Hb, Ascii.eqb_refl.
  - now rewrite IH.
Qed.

Lemma substring_skip (n m : nat) (c : ascii) (s : string) :
  substring (S n) m (String c s) = substring n m s.
Proof. reflexivity. Qed.

Lemma endswith_slash (a : string) :
  endswith a "/" = true -> exists x, rsplit_at "/" a = Some (x, EmptyString).
Proof.
  unfold endswith. induction a as [|c a IH]; [discriminate|].
  change (String.length (String c a)) with (S (String.length a)).
  replace (S (String.length a) - String.length "/")%nat
    with (String.length a) by (cbn; lia).
  intros H. apply andb_true_iff in H as [_ H]. apply String.eqb_eq in H.
  destruct a as [|c' a'].
  - cbn in H. injection H as ->. exists EmptyString. reflexivity.
  - change (String.length (String c' a')) with (S (String.length a')) in *.
    rewrite substring_skip in H.
    destruct IH as [x Hx].
    + replace (S (String.length a') - String.length "/")%nat
        with (String.length a') by (cbn; lia).
      rewrite H. reflexivity.
    + exists (String c x). cbn [rsplit_at] in Hx |- *. now rewrite Hx.
Qed.

Lemma no_slash_no_prefix (s : string) :
  rsplit_at "/" s = None -> String.prefix "/" s = false.
Proof.
  destruct s as [|c s]; [reflexivity|]. cbn [rsplit_at String.prefix].
  destruct (rsplit_at "/" s) as [[x y]|]; [discriminate|].
  destruct (Ascii.eqb_spec c "/") as [->|Hc]; [discriminate|].
  intros _. destruct (ascii_dec "/" c) as [E|]; [now subst c|reflexivity].
Qed.

(** The last component of a joined path is the joined name. *)
Lemma basename_path_join (dir name : string) :
  rsplit_at "/" name = None -> basename (path_join dir name) = name.
Proof.
  intros Hn. unfold path_join. rewrite (no_slash_no_prefix name Hn).
  unfold basename.
  destruct (String.eqb_spec dir "") as [->|_]; cbn [orb].
  - cbn [append]. now rewrite Hn.
  - destruct (endswith dir "/") eqn:E.
    + apply endswith_slash in E as [x Hx].
      now rewrite (rsplit_at_none_append _ _ _ Hn), Hx.
    + change (dir ++ "/" ++ name)%string with (dir ++ String "/" name)%string.
      now rewrite (rsplit_at_last _ _ _ Hn).
Qed.

(** X5: the outputs of a deformation file are named after the file alone.
    For a file name [stem.ext] without a slash, whose extension has no dot and
    whose stem is not made of dots only, the base name is [stem] whatever the
    input directory, so the two outputs are [stem.las] and [stem.xyz] in the
    output directory. *)
Theorem outputs_named_after_file (input_dir output_dir stem ext : string) :
  rsplit_at "/" (stem ++ "." ++ ext) = None ->
  rsplit_at "." ext = None ->
  all_dots stem = false ->
  splitext (basename (path_join input_dir (stem ++ "." ++ ext)))
  = (stem, ("." ++ ext)%string)
  /\ path_join output_dir
       (fst (splitext (basename (path_join input_dir (stem ++ "." ++ ext))))
        ++ ".las")
     = path_join output_dir (stem ++ ".las")
  /\ path_join output_dir
       (fst (splitext (basename (path_join input_dir (stem ++ "." ++ ext))))
        ++ ".xyz")
     = path_join output_dir (stem ++ ".xyz").
Proof.
  intros Hslash Hext Hstem.
  assert (H : splitext (basename (path_join input_dir (stem ++ "." ++ ext)))
              = (stem, ("." ++ ext)%string)).
  { rewrite basename_path_join by exact Hslash.
    unfold splitext. rewrite Hslash.
    change (stem ++ "." ++ ext)%string with (stem ++ String "." ext)%string.
    rewrite (rsplit_at_last _ _ _ Hext), Hstem. reflexivity. }
  rewrite H. repeat split; reflexivity.
Qed.

Lemma outputs_named_after_file_witness :
  splitext (basename (path_join "results/deformation"
                                ("2021.01.01_unwrap" ++ "." ++ "geo")))
  = ("2021.01.01_unwrap"%string, ("." ++ "geo")%string)
  /\ path_join "out/"
       (fst (splitext (basename (path_join "results/deformation"
                                           ("2021.01.01_unwrap" ++ "." ++ "geo"))))
        ++ ".las")
     = path_join "out/" ("2021.01.01_unwrap" ++ ".las")
  /\ path_join "out/"
       (fst (splitext (basename (path_join "results/deformation"
                                           ("2021.01.01_unwrap" ++ "." ++ "geo"))))
        ++ ".xyz")
     = path_join "out/" ("2021.01.01_unwrap" ++ ".xyz").
Proof.
  apply (outputs_named_after_file "results/deformation" "out/"
           "2021.01.01_unwrap" "geo"); reflexivity.
Defined.

Lemma las_is_not_xyz (output_dir base_name : string) :
  path_join output_dir (base_name ++ ".las")
  <> path_join output_dir (base_name ++ ".xyz").
Proof.
  unfold path_join.
  assert (Hp : String.prefix "/" (base_name ++ ".las")
               = String.prefix "/" (base_name ++ ".xyz")).
  { destruct base_name as [|c b]; [reflexivity|].
    cbn [append String.prefix].
    destruct (ascii_dec "/" c); [|reflexivity].
    now destruct (b ++ ".las")%string, (b ++ ".xyz")%string. }
  rewrite <- Hp.
  destruct (String.prefix "/" (base_name ++ ".las"));
    [| destruct (String.eqb output_dir "" || endswith output_dir "/") ];
    intros H; repeat apply append_inv_head in H; discriminate H.
Qed.

(** ** Effects of one conversion on the files *)

Lemma write_file_other (path : string) (f : file) (w : world) (p : string) :
  p <> path -> contents (snd (write_file path f w)) p = contents w p.
Proof.
  intros Hp. unfold write_file. destruct (writable w path); [|reflexivity].
  cbn. apply String.eqb_neq in Hp. now rewrite Hp.
Qed.

Lemma write_file_raise (path : string) (f : file) (w w' : world) (e : exn) :
  write_file path f w = (Raise e, w') -> w' = w.
Proof.
  unfold write_file. destruct (writable w path); intros H;
    [discriminate | now injection H].
Qed.

Lemma save_to_las_other (pts : points) (attrs : attributes)
    (path : string) (w : world) (p : string) :
  p <> path -> contents (snd (save_to_las pts attrs path w)) p = contents w p.
Proof.
  intros Hp. unfold save_to_las, io_bind, lift.
  destruct (add_attributes _ attrs); [|reflexivity].
  unfold las_write. now apply write_file_other.
Qed.

Lemma save_to_las_raise (pts : points) (attrs : attributes)
    (path : string) (w w' : world) (e : exn) :
  save_to_las pts attrs path w = (Raise e, w') -> w' = w.
Proof.
  unfold save_to_las, io_bind, lift.
  destruct (add_attributes _ attrs); [|intros H; now injection H].
  unfold las_write. apply write_file_raise.
Qed.

Lemma save_to_xyz_other (pts : points) (attrs : attributes)
    (path : string) (w : world) (p : string) :
  p <> path -> contents (snd (save_to_xyz pts attrs path w)) p = contents w p.
Proof.
  intros Hp. unfold save_to_xyz, io_bind, lift.
  destruct (df_add_attributes _ attrs); [|reflexivity].
  unfold to_csv. now apply write_file_other.
Qed.

Lemma save_to_xyz_raise (pts : points) (attrs : attributes)
    (path : string) (w w' : world) (e : exn) :
  save_to_xyz pts attrs path w = (Raise e, w') -> w' = w.
Proof.
  unfold save_to_xyz, io_bind, lift.
  destruct (df_add_attributes _ attrs); [|intros H; now injection H].
  unfold to_csv. apply write_file_raise.
Qed.

(** One conversion leaves every path but its two outputs as it was. *)
Lemma process_deformation_file_other
    (deformation_file coherence_file output_dir : string) (cfg : config)
    (w : world) (p : string) :
  p <> path_join output_dir
         (fst (splitext (basename deformation_file)) ++ ".las") ->
  p <> path_join output_dir
         (fst (splitext (basename deformation_file)) ++ ".xyz") ->
  contents (snd (process_deformation_file deformation_file coherence_file
                   output_dir cfg w)) p
  = contents w p.
Proof.
  intros Hlas Hxyz. unfold process_deformation_file.
  destruct (read_deformation_data w deformation_file) as [[[d t] crs]|];
    [|reflexivity].
  unfold io_bind at 1. unfold lift.
  destruct (create_point_cloud d _ t cfg) as [[pts attrs]|e]; [|reflexivity].
  unfold io_bind.
  pose proof (save_to_las_other pts attrs _ w p Hlas) as H1.
  destruct (save_to_las pts attrs _ w) as [[[]|e] w1]; cbn [snd] in H1;
    [|exact H1].
  pose proof (save_to_xyz_other pts attrs _ w1 p Hxyz) as H2.
  destruct (save_to_xyz pts attrs _ w1) as [[[]|e] w2];
    cbn [snd] in H2; cbv beta iota delta [io_ret snd]; congruence.
Qed.

(** X6: a conversion changes the contents of no path other than its [.las]
    and [.xyz] outputs, however it ends; and a conversion that does not
    return [True] has not written the text file, while the LAS file may
    already be there: nothing is rolled back. *)
Theorem conversion_touches_only_outputs
    (deformation_file coherence_file output_dir : string) (cfg : config)
    (w : world) :
  (forall p,
     p <> path_join output_dir
            (fst (splitext (basename deformation_file)) ++ ".las") ->
     p <> path_join output_dir
            (fst (splitext (basename deformation_file)) ++ ".xyz") ->
     contents (snd (process_deformation_file deformation_file coherence_file
                      output_dir cfg w)) p
     = contents w p)
  /\ (fst (process_deformation_file deformation_file coherence_file
             output_dir cfg w) <> Ok true ->
      contents (snd (process_deformation_file deformation_file coherence_file
                       output_dir cfg w))
        (path_join output_dir
           (fst (splitext (basename deformation_file)) ++ ".xyz"))
      = contents w
          (path_join output_dir
             (fst (splitext (basename deformation_file)) ++ ".xyz"))).
Proof.
  split; [intros p; apply process_deformation_file_other|].
  unfold process_deformation_file.
  destruct (read_deformation_data w deformation_file) as [[[d t] crs]|];
    [|reflexivity].
  unfold io_bind at 1 3. unfold lift.
  destruct (create_point_cloud d _ t cfg) as [[pts attrs]|e]; [|reflexivity].
  unfold io_bind.
  set (las := path_join output_dir
                (fst (splitext (basename deformation_file)) ++ ".las")).
  set (xyz := path_join output_dir
                (fst (splitext (basename deformation_file)) ++ ".xyz")).
  assert (Hne : xyz <> las) by (intros E; now apply (las_is_not_xyz output_dir
                    (fst (splitext (basename deformation_file))))).
  pose proof (save_to_las_other pts attrs las w xyz Hne) as H1.
  destruct (save_to_las pts attrs las w) as [[[]|e] w1] eqn:E1; cbn [snd] in H1;
    [|intros _; exact H1].
  destruct (save_to_xyz pts attrs xyz w1) as [[[]|e] w2] eqn:E2;
    cbv beta iota delta [io_ret fst snd].
  - intros H. exfalso. now apply H.
  - intros _. apply save_to_xyz_raise in E2. now subst w2.
Qed.







(** X8: a coherence file that is there but cannot be read as a raster does
    not fail the pair and is not reported to the caller: the conversion runs
    exactly as it does when no coherence file is named, with coherence 1.0
    for every point. *)
Theorem unreadable_coherence_ignored
    (deformation_file coherence_file output_dir : string) (cfg : config)
    (w : world) :
  read_coherence_data w coherence_file = None ->
  process_deformation_file deformation_file coherence_file output_dir cfg w
  = process_deformation_file deformation_file "" output_dir cfg w.
Proof.
  intros H. unfold process_deformation_file.
  destruct (read_deformation_data w deformation_file) as [[[d t] crs]|];
    [|reflexivity].
  rewrite H. cbn [String.eqb negb andb].
  now destruct (negb (String.eqb coherence_file "")
                && path_exists w coherence_file).
Qed.

Lemma unreadable_coherence_ignored_witness :
  process_deformation_file "in/20210101_unwrap.geo" "in/20210101_corr.geo"
    "out" Sample.cfg2 Sample.corrupt_coherence_world
  = process_deformation_file "in/20210101_unwrap.geo" "" "out" Sample.cfg2
      Sample.corrupt_coherence_world.
Proof.
  apply (unreadable_coherence_ignored "in/20210101_unwrap.geo"
           "in/20210101_corr.geo" "out" Sample.cfg2
           Sample.corrupt_coherence_world).
  reflexivity.
Defined.

(** ** The loop of main as a whole *)

Lemma length_append (a s : string) :
  String.length (a ++ s) = (String.length a + String.length s)%nat.
Proof. induction a as [|c a IH]; simpl; [reflexivity | now rewrite IH]. Qed.

Lemma append_assoc (a b c : string) :
  ((a ++ b) ++ c)%string = (a ++ (b ++ c))%string.
Proof. induction a as [|x a IH]; simpl; [reflexivity | now rewrite IH]. Qed.

Lemma substring_whole (s : string) : substring 0 (String.length s) s = s.
Proof. induction s as [|c s IH]; simpl; [reflexivity | now rewrite IH]. Qed.

Lemma substring_after (a s : string) (m : nat) :
  substring (String.length a) m (a ++ s) = substring 0 m s.
Proof. induction a as [|c a IH]; simpl; [reflexivity | exact IH]. Qed.

Lemma endswith_append (a s : string) : endswith (a ++ s) s = true.
Proof.
  unfold endswith. rewrite length_append.
  replace (String.length a + String.length s - String.length s)%nat
    with (String.length a) by lia.
  rewrite substring_after, substring_whole, String.eqb_refl.
  rewrite andb_true_r. apply Nat.leb_le. lia.
Qed.

(** A joined path ends as its last part ends. *)
Lemma path_join_endswith (dir base suffix : string) :
  endswith (path_join dir (base ++ suffix)) suffix = true.
Proof.
  unfold path_join.
  destruct (String.prefix "/" (base ++ suffix));
    [apply endswith_append|].
  destruct (String.eqb dir "" || endswith dir "/");
    rewrite <- ?append_assoc; apply endswith_append.
Qed.

Lemma process_all_other (input_dir output_dir : string) (cfg : config)
    (names : list string) (count : nat) (w : world) (p : string) :
  endswith p ".las" = false -> endswith p ".xyz" = false ->
  contents (snd (process_all input_dir output_dir cfg names count w)) p
  = contents w p.
Proof.
  intros Hlas Hxyz. revert count w.
  induction names as [|name rest IH]; intros count w; [reflexivity|].
  cbn [process_all]. destruct (endswith name "_unwrap.geo"); [|apply IH].
  unfold io_bind.
  pose proof (process_deformation_file_other (path_join input_dir name)
                (path_join input_dir (replace name "_unwrap.geo" "_corr.geo"))
                output_dir cfg w p) as H.
  destruct (process_deformation_file _ _ output_dir cfg w) as [[ok|e] w1];
    cbn [snd] in H.
  - rewrite IH. apply H; intros ->;
      [ rewrite path_join_endswith in Hlas
      | rewrite path_join_endswith in Hxyz ]; discriminate.
  - cbn [snd]. apply H; intros ->;
      [ rewrite path_join_endswith in Hlas
      | rewrite path_join_endswith in Hxyz ]; discriminate.
Qed.

(** X9: [main] changes the contents of no path whose name does not end in
    [.las] or [.xyz], however it ends: the rasters it reads and its
    configuration file are never overwritten. *)
Theorem main_writes_point_clouds_only (a : args) (w : world) (p : string) :
  endswith p ".las" = false -> endswith p ".xyz" = false ->
  contents (snd (main a w)) p = contents w p.
Proof.
  intros Hlas Hxyz. unfold main, io_bind, load_config, listdir.
  destruct (contents w (arg_config a)) as [[| cfg | | |]|]; try reflexivity.
  destruct (listing w _) as [names|]; [|reflexivity].
  now apply process_all_other.
Qed.

Lemma main_writes_point_clouds_only_witness :
  contents (snd (main Sample.run_args Sample.good_world))
    "in/20210101_unwrap.geo"
  = contents Sample.good_world "in/20210101_unwrap.geo".
Proof.
  apply (main_writes_point_clouds_only Sample.run_args Sample.good_world
           "in/20210101_unwrap.geo"); reflexivity.
Defined.




(** X11: when no listed name ends in [_unwrap.geo], or every deformation
    file so named cannot be read, the loop of [main] ends with the count it
    started from and the world as it was: nothing is written and nothing is
    raised. *)
Theorem nothing_to_convert (input_dir output_dir : string) (cfg : config)
    (names : list string) (count : nat) (w : world) :
  (forall name,
     In name names -> endswith name "_unwrap.geo" = true ->
     read_deformation_data w (path_join input_dir name) = None) ->
  process_all input_dir output_dir cfg names count w = (Ok count, w).
Proof.
  induction names as [|name rest IH]; intros H; [reflexivity|].
  cbn [process_all]. destruct (endswith name "_unwrap.geo") eqn:E.
  - unfold io_bind, process_deformation_file.
    rewrite (H name (or_introl eq_refl) E).
    apply IH. intros n Hn. apply H. now right.
  - apply IH. intros n Hn. apply H. now right.
Qed.

Lemma nothing_to_convert_witness :
  process_all "in" "out" Sample.cfg2
    ["broken_unwrap.geo"; "20210101_corr.geo"; "notes.txt"]%string 0
    Sample.good_world
  = (Ok 0%nat, Sample.good_world).
Proof.
  apply (nothing_to_convert "in" "out" Sample.cfg2
           ["broken_unwrap.geo"; "20210101_corr.geo"; "notes.txt"]%string
           0%nat Sample.good_world).
  intros name [<- | [<- | [<- | []]]] E; try discriminate E; reflexivity.
Defined.
